(** * PAR/REC header reader (nibabel/parrec.py): model and properties

    The development follows [nibabel/parrec.py].  Python [int] is [Z];
    Python and numpy floating-point numbers are idealised as the real
    numbers [R] (no rounding, no infinities, no NaN), with [cos], [sin] and
    [PI] standing for [np.cos], [np.sin] and [np.pi].  Exceptions are
    values of [exn]; a computation that may raise returns a [result].
    Objects that Python shares by reference (the general-information
    [dict], the structured array of image definitions, header instances)
    live in a store indexed by locations. *)

From Stdlib Require Import ZArith List Ascii String Reals Lra Lia DecimalString DecimalZ.
From stdpp Require Import base gmap list strings sorting.

Local Open Scope Z_scope.

(** ** Exceptions and results *)

Inductive exn : Type :=
  | PARRECError      (* parrec.PARRECError *)
  | KeyError
  | IndexError
  | ValueError
  | TypeError
  | AttributeError
  | AssertionError
  | Stuck.           (* a reference that is not in the store: no Python behaviour *)

Inductive result (A : Type) : Type :=
  | Ok (a : A)
  | Raise (e : exn).
Arguments Ok {A} a.
Arguments Raise {A} e.

#[global] Instance result_ret : MRet result := fun A a => Ok a.

#[global] Instance result_bind : MBind result := fun A B k r =>
  match r with
  | Ok a => k a
  | Raise e => Raise e
  end.

#[global] Instance result_fmap : FMap result := fun A B f r =>
  match r with
  | Ok a => Ok (f a)
  | Raise e => Raise e
  end.

#[global] Instance exn_eq_dec : EqDecision exn.
Proof. solve_decision. Defined.

(** ** The numpy fragment in use *)

(** Values that [np.unique] can sort: decidable equality and a decidable
    total order. *)
Class NpScalar (A : Type) := {
  np_eq_dec :: EqDecision A;
  np_le : relation A;
  np_le_dec :: RelDecision np_le;
}.

#[global] Instance Z_scalar : NpScalar Z :=
  {| np_eq_dec := Z.eq_dec; np_le := Z.le; np_le_dec := Z_le_dec |}.

#[global] Instance R_eq_dec : EqDecision R := Req_dec_T.

#[global] Instance R_scalar : NpScalar R :=
  {| np_eq_dec := Req_dec_T; np_le := Rle; np_le_dec := Rle_dec |}.

(** [np.unique(a)] on a one-dimensional array: the distinct values,
    sorted. *)
Definition np_unique {A} `{NpScalar A} (a : list A) : list A :=
  merge_sort np_le (remove_dups a).

(** [np.prod] of a list of lengths. *)
Definition np_prod (l : list nat) : nat := fold_right Nat.mul 1%nat l.

(** An array is one-dimensional, shape [(n,)], or two-dimensional, shape
    [(n, k)], stored by rows.  A field of the structured array with a
    scalar type gives the first, a field with a sub-array type the
    second. *)
Inductive ndarray (A : Type) : Type :=
  | Arr1 (a : list A)
  | Arr2 (rows : list (list A)).
Arguments Arr1 {A} a.
Arguments Arr2 {A} rows.

(** [len(prop.shape)] *)
Definition ndim {A} (prop : ndarray A) : nat :=
  match prop with
  | Arr1 _ => 1
  | Arr2 _ => 2
  end.

(** [prop[i]] on a two-dimensional array: row [i], [IndexError] out of
    range. *)
Definition row {A} (rows : list (list A)) (i : nat) : result (list A) :=
  match rows !! i with
  | Some r => Ok r
  | None => Raise IndexError
  end.

(** [a[0]] on a one-dimensional array. *)
Definition item0 {A} (a : list A) : result A :=
  match a with
  | x :: _ => Ok x
  | [] => Raise IndexError
  end.

(** [[f(x) for x in l]] where [f] may raise. *)
Fixpoint mapM {A B} (f : A -> result B) (l : list A) : result (list B) :=
  match l with
  | [] => Ok []
  | x :: l' => y ← f x; ys ← mapM f l'; Ok (y :: ys)
  end.

(** ** Volume grouping primitives *)

Module VolumeGrouper.

(** Number of elements of [seen] equal to [x]. *)
Definition occurrences (seen : list Z) (x : Z) : nat :=
  length (filter (fun y => y = x) seen).

Fixpoint occurrence_index_from (seen seq : list Z) : list nat :=
  match seq with
  | [] => []
  | x :: rest => occurrences seen x :: occurrence_index_from (x :: seen) rest
  end.

(** Modelled from the spec: [vol_numbers] is imported by the tests from
    [parrec] but is not defined in the module.  Section 4.3: for the
    sequence of slice numbers in table order, per position, the count of
    prior occurrences of that identical slice-number value (0-based). *)
Definition occurrence_index (seq : list Z) : list nat :=
  occurrence_index_from [] seq.

(** The values of [seq] at the positions carrying volume index [v]. *)
Definition group (seq : list Z) (vols : list nat) (v : nat) : list Z :=
  fst <$> filter (fun p => p.2 = v) (zip seq vols).

(** [{slice_min, ..., slice_min + slice_count - 1}] *)
Definition slice_range (slice_min slice_count : Z) : list Z :=
  (fun i => slice_min + Z.of_nat i) <$> seq 0 (Z.to_nat slice_count).

(** Modelled from the spec: [vol_is_full] is imported by the tests from
    [parrec] but is not defined in the module.  Section 4.3: groups [seq]
    by [occurrence_index], and for each group tests whether
    [{slice_min, ..., slice_min+slice_count-1}] is a subset of the group;
    fails with a range error (the tests' [ValueError]) if any value in
    [seq] is strictly less than [slice_min]; values above the declared
    maximum are tolerated; returns one boolean per input position, the
    completeness of that position's volume. *)
Definition is_volume_full (seq : list Z) (slice_count slice_min : Z)
  : result (list bool) :=
  if decide (Exists (fun x => x < slice_min) seq) then Raise ValueError
  else
    let vols := occurrence_index seq in
    Ok ((fun v => bool_decide (slice_range slice_min slice_count
                                 ⊆ group seq vols v)) <$> vols).

End VolumeGrouper.

(** ** Scalars, vectors and matrices *)

(** An element of a numeric array: a numpy integer or a numpy float. *)
Inductive scalar : Type :=
  | I (z : Z)
  | F (x : R).

Definition to_float (s : scalar) : R :=
  match s with
  | I z => IZR z
  | F x => x
  end.

Definition scalar_le (a b : scalar) : Prop :=
  match a, b with
  | I x, I y => x <= y
  | _, _ => (to_float a <= to_float b)%R
  end.

#[global] Instance scalar_eq_dec : EqDecision scalar.
Proof. solve_decision. Defined.

#[global] Instance scalar_le_dec : RelDecision scalar_le.
Proof.
  intros [x|x] [y|y]; unfold scalar_le; simpl;
    first [apply Z_le_dec | apply Rle_dec].
Defined.

#[global] Instance scalar_scalar : NpScalar scalar :=
  {| np_eq_dec := scalar_eq_dec; np_le := scalar_le;
     np_le_dec := scalar_le_dec |}.

(** [str(n)] of an integer; the one field it is applied to,
    ['image pixel size'], is declared [int]. *)
Definition str (s : scalar) : result string :=
  match s with
  | I z => Ok (NilZero.string_of_int (Z.to_int z))
  | F _ => Raise TypeError
  end.

(** A float array of shape [(3,)]. *)
Record vec3 : Type := V3 { v0 : R; v1 : R; v2 : R }.

(** A 3x3 matrix, by rows. *)
Record mat3 : Type := M3 { m0 : vec3; m1 : vec3; m2 : vec3 }.

(** A 4x4 array in blocks: [aff[:3,:3]], [aff[:3,3]] and [aff[3,:]]. *)
Record mat4 : Type := M4 { a_rzs : mat3; a_trans : vec3; a_bottom : vec3 * R }.

#[global] Instance vec3_eq_dec : EqDecision vec3.
Proof. solve_decision. Defined.

#[global] Instance mat3_eq_dec : EqDecision mat3.
Proof. solve_decision. Defined.

Section LinearAlgebra.
Local Open Scope R_scope.

Definition vmap2 (f : R -> R -> R) (a b : vec3) : vec3 :=
  V3 (f (v0 a) (v0 b)) (f (v1 a) (v1 b)) (f (v2 a) (v2 b)).

Definition vadd : vec3 -> vec3 -> vec3 := vmap2 Rplus.
Definition vsub : vec3 -> vec3 -> vec3 := vmap2 Rminus.
Definition vmul : vec3 -> vec3 -> vec3 := vmap2 Rmult.

Definition vmap (f : R -> R) (a : vec3) : vec3 :=
  V3 (f (v0 a)) (f (v1 a)) (f (v2 a)).

Definition vdot (a b : vec3) : R := v0 a * v0 b + v1 a * v1 b + v2 a * v2 b.

Definition col (m : mat3) (j : vec3 -> R) : vec3 := V3 (j (m0 m)) (j (m1 m)) (j (m2 m)).

(** [np.dot(m, v)] *)
Definition mvec (m : mat3) (v : vec3) : vec3 :=
  V3 (vdot (m0 m) v) (vdot (m1 m) v) (vdot (m2 m) v).

(** The matrix product, [a * b] on [np.mat]. *)
Definition mmul (a b : mat3) : mat3 :=
  let r (x : vec3) := V3 (vdot x (col b v0)) (vdot x (col b v1)) (vdot x (col b v2)) in
  M3 (r (m0 a)) (r (m1 a)) (r (m2 a)).

(** [np.diag] of three values; [ValueError] (shapes do not align in the
    product that follows) for any other number of values. *)
Definition diag (d : list R) : result mat3 :=
  match d with
  | [x; y; z] => Ok (M3 (V3 x 0 0) (V3 0 y 0) (V3 0 0 z))
  | _ => Raise ValueError
  end.

Definition eye3 : mat3 := M3 (V3 1 0 0) (V3 0 1 0) (V3 0 0 1).

(** [np.eye(4)] *)
Definition eye4 : mat4 := M4 eye3 (V3 0 0 0) (V3 0 0 0, 1).

End LinearAlgebra.

(** ** The data model *)

(** A value of the general-information dictionary, typed as the registry
    [_hdr_key_dict] types it: [int], [float], a float array of shape
    [(3,)], or a string. *)
Inductive value : Type :=
  | VInt (z : Z)
  | VFloat (x : R)
  | VArray (a : vec3)
  | VStr (s : string).

(** One image definition: the fields of [image_def_dtd] that the header
    methods read, and the volume-defining keys. *)
Record image_def : Type := {
  slice_number : Z;
  echo_number : Z;
  dynamic_scan_number : Z;
  image_pixel_size : Z;
  recon_resolution : Z * Z;
  rescale_intercept : R;
  rescale_slope : R;
  scale_slope : R;
  image_angulation : R * R * R;
  slice_thickness : R;
  slice_gap : R;
  slice_orientation : Z;
  pixel_spacing : R * R;
}.

Definition int_column (f : image_def -> Z) (defs : list image_def) : ndarray scalar :=
  Arr1 ((fun d => I (f d)) <$> defs).

Definition float_column (f : image_def -> R) (defs : list image_def) : ndarray scalar :=
  Arr1 ((fun d => F (f d)) <$> defs).

(** [image_defs[name]]: the column of a field; a field with a sub-array
    type gives a two-dimensional array with one row per definition.  The
    columns are those of the fields of [image_def]: a name that is not a
    field raises [ValueError], and the fields of [image_def_dtd] that no
    header method reads are not modelled and are taken as such names. *)
Definition getitem (defs : list image_def) (name : string) : result (ndarray scalar) :=
  if decide (name = "slice number") then Ok (int_column slice_number defs)
  else if decide (name = "echo number") then Ok (int_column echo_number defs)
  else if decide (name = "dynamic scan number") then Ok (int_column dynamic_scan_number defs)
  else if decide (name = "image pixel size") then Ok (int_column image_pixel_size defs)
  else if decide (name = "recon resolution") then
    Ok (Arr2 ((fun d => [I (recon_resolution d).1; I (recon_resolution d).2]) <$> defs))
  else if decide (name = "rescale intercept") then Ok (float_column rescale_intercept defs)
  else if decide (name = "rescale slope") then Ok (float_column rescale_slope defs)
  else if decide (name = "scale slope") then Ok (float_column scale_slope defs)
  else if decide (name = "image angulation") then
    Ok (Arr2 ((fun d => let '(a, b, c) := image_angulation d in [F a; F b; F c]) <$> defs))
  else if decide (name = "slice thickness") then Ok (float_column slice_thickness defs)
  else if decide (name = "slice gap") then Ok (float_column slice_gap defs)
  else if decide (name = "slice orientation") then Ok (int_column slice_orientation defs)
  else if decide (name = "pixel spacing") then
    Ok (Arr2 ((fun d => [F (pixel_spacing d).1; F (pixel_spacing d).2]) <$> defs))
  else Raise ValueError.

(** numpy data types reachable as [np.typeDict['int' + str(n)]]. *)
Inductive dtype : Type := int8 | int16 | int32 | int64 | intp.

(** [np.typeDict[key]], a table of numpy, an external library: the keys
    of the form ['int' + str(n)] that it holds, for the signed integers
    of 8, 16, 32 and 64 bits and, as ['int0'], for the integer of the
    size of a pointer; a key built from another number, 24 among them,
    is not in the table. *)
Definition typeDict (key : string) : result dtype :=
  if decide (key = "int8") then Ok int8
  else if decide (key = "int16") then Ok int16
  else if decide (key = "int32") then Ok int32
  else if decide (key = "int64") then Ok int64
  else if decide (key = "int0") then Ok intp
  else Raise KeyError.

(** [slice_orientation_codes.label[code]] *)
Definition slice_orientation_label (code : scalar) : result string :=
  match code with
  | I 1 => Ok "transversal"
  | I 2 => Ok "sagital"
  | I 3 => Ok "coronal"
  | _ => Raise KeyError
  end.

Arguments slice_orientation_label _ : simpl never.

Definition loc := positive.

(** Modelled from the spec: the base class [spatialimages.Header] is not
    among the sources.  Section 6: the header exposes the final data
    shape, the element dtype and the zooms; [Header.__init__] stores the
    three values it is given and [get_zooms] returns the stored zooms. *)
Record Header : Type := {
  _dtype : dtype;
  _shape : list scalar;
  _zooms : list R;
}.

(** The attributes of a [PARRECHeader] instance; [general_info] and
    [image_defs] are references to the objects given to the constructor. *)
Record PARRECHeader : Type := {
  general_info : loc;
  image_defs : loc;
  _slice_orientation : option string;
  default_scaling : string;
  base : option Header;
}.

Inductive obj : Type :=
  | ODict (d : gmap string value)
  | ONdarray (a : list image_def)
  | OHeader (h : PARRECHeader)     (* type(o) == PARRECHeader *)
  | OOther (cls : string).         (* an instance of any other class *)

Abbreviation store := (gmap loc obj).

(** ** Reading the store *)

Definition the_header (σ : store) (l : loc) : result PARRECHeader :=
  match σ !! l with
  | Some (OHeader h) => Ok h
  | Some _ => Raise AttributeError
  | None => Raise Stuck
  end.

Definition the_dict (σ : store) (l : loc) : result (gmap string value) :=
  match σ !! l with
  | Some (ODict d) => Ok d
  | Some _ => Raise TypeError
  | None => Raise Stuck
  end.

Definition the_array (σ : store) (l : loc) : result (list image_def) :=
  match σ !! l with
  | Some (ONdarray a) => Ok a
  | Some _ => Raise TypeError
  | None => Raise Stuck
  end.

(** [self.general_info] and [self.image_defs], dereferenced. *)
Definition self_general_info (σ : store) (self : loc) : result (gmap string value) :=
  h ← the_header σ self; the_dict σ (general_info h).

Definition self_image_defs (σ : store) (self : loc) : result (list image_def) :=
  h ← the_header σ self; the_array σ (image_defs h).

(** [self.general_info[key]] *)
Definition general_info_getitem (σ : store) (self : loc) (key : string) : result value :=
  d ← self_general_info σ self;
  match d !! key with
  | Some v => Ok v
  | None => Raise KeyError
  end.

Definition as_int (v : value) : result Z :=
  match v with
  | VInt z => Ok z
  | _ => Raise TypeError
  end.

Definition as_float (v : value) : result R :=
  match v with
  | VFloat x => Ok x
  | VInt z => Ok (IZR z)
  | _ => Raise TypeError
  end.

Definition as_array (v : value) : result vec3 :=
  match v with
  | VArray a => Ok a
  | _ => Raise TypeError
  end.

(** ** PARRECHeader *)

(** The body of [_get_unique_image_prop] once [prop] has been read. *)
Definition unique_image_prop {A} `{NpScalar A} (prop : ndarray A) : result (list A) :=
  uprops ← match prop with
           | Arr2 rows =>                      (* len(prop.shape) > 1 *)
               mapM (fun i => np_unique <$> row rows i) (seq 0 (ndim prop))
           | Arr1 a => Ok [np_unique a]
           end;
  if decide (np_prod (length <$> uprops) = 1%nat)
  then mapM item0 uprops
  else Raise PARRECError.

Definition _get_unique_image_prop (σ : store) (self : loc) (name : string)
  : result (list scalar) :=
  defs ← self_image_defs σ self;
  prop ← getitem defs name;
  unique_image_prop prop.

(** [a[i]] on a one-dimensional array. *)
Definition item {A} (a : list A) (i : nat) : result A :=
  match a !! i with
  | Some x => Ok x
  | None => Raise IndexError
  end.

Definition get_voxel_size (σ : store) (self : loc) : result vec3 :=
  u ← _get_unique_image_prop σ self "slice thickness";
  slice_thickness ← item u 0;
  voxsize_inplane ← _get_unique_image_prop σ self "pixel spacing";
  x ← item voxsize_inplane 0;
  y ← item voxsize_inplane 1;
  Ok (V3 (to_float x) (to_float y) (to_float slice_thickness)).

Definition get_data_offset : Z := 0.

Definition get_ndim (σ : store) (self : loc) : result nat :=
  max_dynamics ← general_info_getitem σ self "max_dynamics" ≫= as_int;
  if decide (1 < max_dynamics) then Ok 4%nat
  else
    max_gradient_orient ← general_info_getitem σ self "max_gradient_orient" ≫= as_int;
    if decide (1 < max_gradient_orient) then Ok 4%nat else Ok 3%nat.

Definition _get_zooms (σ : store) (self : loc) : result (list R) :=
  u ← _get_unique_image_prop σ self "slice gap";
  slice_gap ← item u 0;
  n ← get_ndim σ self;
  voxsize ← get_voxel_size σ self;
  let zooms3 := [v0 voxsize; v1 voxsize; (v2 voxsize + to_float slice_gap)%R] in
  if decide (3 < n)%nat then
    max_dynamics ← general_info_getitem σ self "max_dynamics" ≫= as_int;
    if decide (1 < max_dynamics) then
      repetition_time ← general_info_getitem σ self "repetition_time" ≫= as_float;
      Ok (zooms3 ++ [(repetition_time / 1000)%R])
    else Ok (zooms3 ++ [1%R])
  else Ok zooms3.

(** [len(np.unique(self.image_defs[name]))] for a scalar field. *)
Definition count_unique (σ : store) (self : loc) (name : string) : result nat :=
  defs ← self_image_defs σ self;
  prop ← getitem defs name;
  match prop with
  | Arr1 a => Ok (length (np_unique a))
  | Arr2 rows => Ok (length (np_unique (concat rows)))
  end.

Definition get_data_shape_in_file (σ : store) (self : loc) : result (list scalar) :=
  ndynamics ← count_unique σ self "dynamic scan number";
  max_diffusion_values ← general_info_getitem σ self "max_diffusion_values" ≫= as_int;
  max_gradient_orient ← general_info_getitem σ self "max_gradient_orient" ≫= as_int;
  let ndtivolumes := (max_diffusion_values - 1) * max_gradient_orient in
  nslices ← count_unique σ self "slice number";
  max_slices ← general_info_getitem σ self "max_slices" ≫= as_int;
  if decide (Z.of_nat nslices = max_slices) then
    inplane_shape ← _get_unique_image_prop σ self "recon resolution";
    if decide (1 < ndynamics)%nat
    then Ok (inplane_shape ++ [I (Z.of_nat nslices); I (Z.of_nat ndynamics)])
    else if decide (1 < ndtivolumes)
    then Ok (inplane_shape ++ [I (Z.of_nat nslices); I ndtivolumes])
    else Ok (inplane_shape ++ [I (Z.of_nat nslices)])
  else Raise PARRECError.

(** Slope and intercept, each an array as [_get_unique_image_prop]
    returns it; the arithmetic is numpy's, element by element. *)
Definition get_data_scaling (σ : store) (self : loc) (method : string)
  : result (list R * list R) :=
  scale_slope ← _get_unique_image_prop σ self "scale slope";
  rescale_slope ← _get_unique_image_prop σ self "rescale slope";
  rescale_intercept ← _get_unique_image_prop σ self "rescale intercept";
  if decide (method = "dv") then
    Ok (to_float <$> rescale_slope, to_float <$> rescale_intercept)
  else if decide (method = "fp") then
    Ok ((fun ss => (1 / to_float ss)%R) <$> scale_slope,
        zip_with (fun ri d => (to_float ri / d)%R) rescale_intercept
          (zip_with (fun rs ss => (to_float rs * to_float ss)%R)
             rescale_slope scale_slope))
  else Raise ValueError.

Definition set_slice_orientation (h : PARRECHeader) (s : string) : PARRECHeader :=
  {| general_info := general_info h; image_defs := image_defs h;
     _slice_orientation := Some s; default_scaling := default_scaling h;
     base := base h |}.

Definition get_slice_orientation (σ : store) (self : loc) : result (string * store) :=
  h ← the_header σ self;
  match _slice_orientation h with
  | None =>
      u ← _get_unique_image_prop σ self "slice orientation";
      code ← item u 0;
      label ← slice_orientation_label code;
      Ok (label, <[self := OHeader (set_slice_orientation h label)]> σ)
  | Some label => Ok (label, σ)
  end.

(** [self.get_zooms()], the getter of the base class. *)
Definition get_zooms (σ : store) (self : loc) : result (list R) :=
  h ← the_header σ self;
  match base h with
  | Some b => Ok (_zooms b)
  | None => Raise AttributeError
  end.

Section Affine.

(** [euler2mat(z, y, x)] of [nibabel.eulerangles], which is outside this
    module: the affine is computed relative to it. *)
Variable euler2mat : R -> R -> R -> mat3.

Local Open Scope R_scope.

Definition rot_rl (a : R) : mat3 :=
  M3 (V3 1 0 0)
     (V3 0 (cos a) (- sin a))
     (V3 0 (sin a) (cos a)).

Definition rot_ap (a : R) : mat3 :=
  M3 (V3 (cos a) 0 (sin a))
     (V3 0 1 0)
     (V3 (- sin a) 0 (cos a)).

Definition rot_fh (a : R) : mat3 :=
  M3 (V3 (cos a) (- sin a) 0)
     (V3 (sin a) (cos a) 0)
     (V3 0 0 1).

(** [angulation * np.pi / 180.0], then [*= -1]. *)
Definition ang_rad (angulation : vec3) : vec3 :=
  vmap (fun a => a * PI / 180 * -1) angulation.

Definition rot_r2agui (ang_rad : vec3) : mat3 :=
  mmul (mmul (rot_rl (v2 ang_rad)) (rot_ap (v0 ang_rad))) (rot_fh (v1 ang_rad)).

Definition rot_nibabel (ang_rad : vec3) : mat3 :=
  euler2mat (v1 ang_rad) (v0 ang_rad) (v2 ang_rad).

(** The axis reconfiguration and the field of view in data order, per
    slice orientation. *)
Definition recfg_data_axis (slice_orientation : string) (fov : vec3)
  : result (mat3 * vec3) :=
  if decide (slice_orientation = "sagital") then
    Ok (M3 (V3 0 0 1) (V3 (-1) 0 0) (V3 0 (-1) 0), fov)
  else if decide (slice_orientation = "transversal") then
    Ok (M3 (V3 (-1) 0 0) (V3 0 (-1) 0) (V3 0 0 1),
        V3 (v2 fov) (v0 fov) (v1 fov))             (* fov[[2,0,1]] *)
  else if decide (slice_orientation = "coronal") then
    Ok (M3 (V3 (-1) 0 0) (V3 0 0 (-1)) (V3 0 (-1) 0),
        V3 (v2 fov) (v1 fov) (v0 fov))             (* fov[[2,1,0]] *)
  else Raise PARRECError.

(** [off_center[[2,0,1]] * [-1,-1,0]] *)
Definition iso_offset (off_center : vec3) : vec3 :=
  vmul (V3 (v2 off_center) (v0 off_center) (v1 off_center)) (V3 (-1) (-1) 0).

(** [get_affine(origin)].  The store that is returned is the one of a
    normal return; when a step after [get_slice_orientation] raises, the
    exception alone is returned, without the store in which the label
    has already been cached. *)
Definition get_affine (σ : store) (self : loc) (origin : string)
  : result (mat4 * store) :=
  angulation ← general_info_getitem σ self "angulation" ≫= as_array;
  let ang_rad := ang_rad angulation in
  if decide (rot_r2agui ang_rad = rot_nibabel ang_rad) then
    let rot := rot_nibabel ang_rad in
    fov ← general_info_getitem σ self "fov" ≫= as_array;
    voxsize ← get_voxel_size σ self;
    '(slice_orientation, σ) ← get_slice_orientation σ self;
    '(recfg, fov) ← recfg_data_axis slice_orientation fov;
    let rot := mmul rot recfg in
    voxsize ← get_voxel_size σ self;
    let fov_center_offset :=
      vsub (vmap (fun x => x / 2) voxsize) (vmap (fun x => x / 2) fov) in
    let fov_center_offset := mvec rot fov_center_offset in
    zooms ← get_zooms σ self;
    zoom_diag ← diag (take 3 zooms);
    let scaled := mmul rot zoom_diag in
    let aff := M4 scaled fov_center_offset (a_bottom eye4) in
    if decide (origin = "fov") then Ok (aff, σ)
    else if decide (origin = "scanner") then
      off_center ← general_info_getitem σ self "off_center" ≫= as_array;
      Ok (M4 (a_rzs aff) (vadd (a_trans aff) (iso_offset off_center)) (a_bottom aff), σ)
    else Ok (aff, σ)
  else Raise AssertionError.

End Affine.

(** The attributes that [__init__] sets, before ([base] is [None]) and
    after the call of [Header.__init__]. *)
Definition attributes (info image_defs : loc) (default_scaling : string)
  (base : option Header) : PARRECHeader :=
  {| general_info := info; image_defs := image_defs;
     _slice_orientation := None; default_scaling := default_scaling;
     base := base |}.

(** [PARRECHeader.__init__]; the call of [Header.__init__] stores its
    three arguments. *)
Definition __init__ (σ : store) (self : loc) (info image_defs : loc)
  (default_scaling : string) : result store :=
  let σ := <[self := OHeader (attributes info image_defs default_scaling None)]> σ in
  u ← _get_unique_image_prop σ self "image pixel size";
  bits ← item u 0;
  digits ← str bits;
  dtype ← typeDict ("int" +:+ digits);
  shape ← get_data_shape_in_file σ self;
  zooms ← _get_zooms σ self;
  let b := {| _dtype := dtype; _shape := shape; _zooms := zooms |} in
  Ok (<[self := OHeader (attributes info image_defs default_scaling (Some b))]> σ).

(** A fresh location for a new object. *)
Definition alloc (σ : store) : loc := fresh (dom σ).

(** The call [PARRECHeader(info, image_defs, default_scaling)]. *)
Definition PARRECHeader_new (σ : store) (info image_defs : loc)
  (default_scaling : string) : result (loc * store) :=
  let self := alloc σ in
  σ ← __init__ σ self info image_defs default_scaling;
  Ok (self, σ).

(** [PARRECHeader.copy]: [copy.deepcopy] of the dictionary and
    [ndarray.copy] of the table each make a new object with the same
    contents. *)
Definition copy (σ : store) (self : loc) : result (loc * store) :=
  h ← the_header σ self;
  d ← the_dict σ (general_info h);
  let info := alloc σ in
  let σ := <[info := ODict d]> σ in
  a ← the_array σ (image_defs h);
  let image_defs := alloc σ in
  let σ := <[image_defs := ONdarray a]> σ in
  PARRECHeader_new σ info image_defs "dv".

(** [PARRECHeader.from_header(header)]; [None] is Python's [None]. *)
Definition from_header (σ : store) (header : option loc) : result (loc * store) :=
  match header with
  | None => Raise PARRECError
  | Some p =>
      match σ !! p with
      | Some (OHeader _) => copy σ p
      | Some _ => Raise PARRECError
      | None => Raise Stuck
      end
  end.

(** Modelled from the spec: [euler2mat] is defined in
    [nibabel.eulerangles], not in this module.  Section 4.5: the Euler-angle
    helper and the explicit matrix product must agree.  This is the helper
    that agrees: the rotations about x, y and z, composed in that order.
    It serves to run [get_affine] on sample headers. *)
Definition euler2mat (z y x : R) : mat3 :=
  mmul (mmul (rot_rl x) (rot_ap y)) (rot_fh z).

(** ** A sample series

    Two slices, two dynamics, transversal, 64 x 64 voxels of 4 x 4 x 6 mm
    with a gap of 2 mm. *)

Module Sample.

Definition record (slice dyn bits : Z) (rescale : R) : image_def :=
  {| slice_number := slice;
     echo_number := 1;
     dynamic_scan_number := dyn;
     image_pixel_size := bits;
     recon_resolution := (64, 64);
     rescale_intercept := 0;
     rescale_slope := rescale;
     scale_slope := 5;
     image_angulation := ((-13)%R, 0%R, 0%R);
     slice_thickness := 6;
     slice_gap := 2;
     slice_orientation := 1;
     pixel_spacing := (4%R, 4%R) |}.

(** The complete table: every record holds the same array values. *)
Definition table (bits : Z) : list image_def :=
  [record 1 1 bits 2; record 2 1 bits 2; record 1 2 bits 2; record 2 2 bits 2].

(** The table without the final record of its last volume. *)
Definition truncated (bits : Z) : list image_def :=
  [record 1 1 bits 2; record 2 1 bits 2; record 1 2 bits 2].

(** A table whose rescale slope differs between the two dynamics. *)
Definition varying : list image_def :=
  [record 1 1 16 2; record 2 1 16 2; record 1 2 16 3; record 2 2 16 3].

(** A single volume without its final record. *)
Definition single_truncated : list image_def := [record 1 1 16 2].

(** General information; [off_center] is in (ap, fh, rl) order. *)
Definition info (off_center : vec3) : gmap string value :=
  <["max_slices" := VInt 2]> (
  <["max_dynamics" := VInt 2]> (
  <["max_gradient_orient" := VInt 1]> (
  <["max_diffusion_values" := VInt 1]> (
  <["repetition_time" := VFloat 2000]> (
  <["angulation" := VArray (V3 0 0 0)]> (
  <["fov" := VArray (V3 256 16 256)]> (
  <["off_center" := VArray off_center]> ∅))))))).

(** A store holding the dictionary at 1 and the table at 2. *)
Definition objects (d : gmap string value) (a : list image_def) : store :=
  <[1%positive := ODict d]> (<[2%positive := ONdarray a]> ∅).

(** The header that the constructor builds from the complete table. *)
Definition header (bits : dtype) : PARRECHeader :=
  attributes 1%positive 2%positive "dv"
    (Some {| _dtype := bits;
             _shape := [I 64; I 64; I 2; I 2];
             _zooms := [4; 4; 6 + 2; 2000 / 1000]%R |}).

Definition with_header (d : gmap string value) (a : list image_def) : store :=
  <[alloc (objects d a) := OHeader (header int16)]> (objects d a).

(** The complete table with an in-plane resolution of 64 x 32 in every
    record. *)
Definition rectangular : list image_def :=
  (fun r => {| slice_number := slice_number r;
               echo_number := echo_number r;
               dynamic_scan_number := dynamic_scan_number r;
               image_pixel_size := image_pixel_size r;
               recon_resolution := (64, 32);
               rescale_intercept := rescale_intercept r;
               rescale_slope := rescale_slope r;
               scale_slope := scale_slope r;
               image_angulation := image_angulation r;
               slice_thickness := slice_thickness r;
               slice_gap := slice_gap r;
               slice_orientation := slice_orientation r;
               pixel_spacing := pixel_spacing r |}) <$> table 16.

(** The lines of a PAR file: the version line, two lines of general
    information, an empty line and one image line of 49 items. *)
Definition par_lines : list string :=
  ["# CLINICAL TRYOUT    Research image export tool     V4.2";
   ".    Max. number of slices/locations    :   2";
   ".    FOV (ap,fh,rl) [mm]                :   256 16 256";
   "";
   "  1 1 1 1 1 1 1 1 1 1 1 1 1 1 1 1 1 1 1 1 1 1 1 1 1 1 1 1 1 1 1 1 1 1 1 1 1 1 1 1 1 1 1 1 1 1 1 1 1  "].

End Sample.

(** ** Further methods *)

(** [np.asscalar(a)]: the element of an array of size 1, [ValueError] for
    any other size. *)
Definition asscalar {A} (a : list A) : result A :=
  match a with
  | [x] => Ok x
  | _ => Raise ValueError
  end.

(** [get_slope_inter]: the scaling of the default method, as scalars. *)
Definition get_slope_inter (σ : store) (self : loc) : result (R * R) :=
  h ← the_header σ self;
  '(slope, intercept) ← get_data_scaling σ self (default_scaling h);
  slope ← asscalar slope;
  intercept ← asscalar intercept;
  Ok (slope, intercept).

(** The transpose of a 3x3 matrix. *)
Definition mtranspose (m : mat3) : mat3 := M3 (col m v0) (col m v1) (col m v2).

(** The determinant of a 3x3 matrix. *)
Definition det3 (m : mat3) : R :=
  (v0 (m0 m) * (v1 (m1 m) * v2 (m2 m) - v2 (m1 m) * v1 (m2 m))
   - v1 (m0 m) * (v0 (m1 m) * v2 (m2 m) - v2 (m1 m) * v0 (m2 m))
   + v2 (m0 m) * (v0 (m1 m) * v1 (m2 m) - v1 (m1 m) * v0 (m2 m)))%R.

(** ** The PAR header parser

    Strings are Python 2 [str]: byte strings, with the whitespace of
    [string.whitespace]. *)

Module Str.

(** The characters that [strip] and [split] take as whitespace: space,
    tab, line feed, vertical tab, form feed, carriage return. *)
Definition is_space (c : ascii) : bool :=
  let n := nat_of_ascii c in
  ((n =? 32) || ((9 <=? n) && (n <=? 13)))%nat.

(** [s.lstrip()] *)
Fixpoint lstrip (s : string) : string :=
  match s with
  | String c r => if is_space c then lstrip r else s
  | EmptyString => EmptyString
  end.

(** [s.rstrip()] *)
Fixpoint rstrip (s : string) : string :=
  match s with
  | String c r =>
      match rstrip r with
      | EmptyString => if is_space c then EmptyString else String c EmptyString
      | r' => String c r'
      end
  | EmptyString => EmptyString
  end.

(** [s.strip()] *)
Definition strip (s : string) : string := rstrip (lstrip s).

(** [s.startswith(p)] *)
Definition startswith (s p : string) : bool := String.prefix p s.

(** [s.count(sub)] is not zero, for a non-empty [sub]. *)
Fixpoint contains (s sub : string) : bool :=
  String.prefix sub s ||
  match s with
  | String _ r => contains r sub
  | EmptyString => false
  end.

(** [s.find(c)] for a character: the first index, [-1] if there is
    none. *)
Fixpoint find (s : string) (c : ascii) : Z :=
  match s with
  | String x r =>
      if Ascii.eqb x c then 0
      else match find r c with
           | -1 => -1
           | i => i + 1
           end
  | EmptyString => -1
  end.

(** [s[i:]] and [s[:j]] for indices that are not negative. *)
Fixpoint from (i : nat) (s : string) : string :=
  match i, s with
  | S i', String _ r => from i' r
  | _, _ => s
  end.

Fixpoint upto (j : nat) (s : string) : string :=
  match j, s with
  | S j', String c r => String c (upto j' r)
  | _, _ => EmptyString
  end.

(** [s[i:j]] for indices that are not negative. *)
Definition slice (i j : nat) (s : string) : string := upto (j - i) (from i s).

Fixpoint split_from (word : string) (s : string) : list string :=
  match s with
  | String c r =>
      if is_space c
      then match word with
           | EmptyString => split_from EmptyString r
           | _ => word :: split_from EmptyString r
           end
      else split_from (word +:+ String c EmptyString) r
  | EmptyString =>
      match word with
      | EmptyString => []
      | _ => [word]
      end
  end.

(** [s.split()]: the maximal runs of characters that are not whitespace. *)
Definition split (s : string) : list string := split_from EmptyString s.

(** [sep.join(l)] *)
Fixpoint join (sep : string) (l : list string) : string :=
  match l with
  | [] => EmptyString
  | [x] => x
  | x :: r => x +:+ sep +:+ join sep r
  end.

End Str.

(** The conversions of the registry and of the schema: [int] and
    [float]. *)
Inductive conv : Type := int | float.

(** The type of a field: a string, a number, or an array of numbers with
    the number of its elements ([np.prod] of its shape). *)
Inductive field_type : Type :=
  | TString
  | TScalar (c : conv)
  | TArray (c : conv) (nelements : nat).

(** A parsed value: a string, a number or an array of numbers. *)
Inductive parsed : Type :=
  | PStr (s : string)
  | PNum (x : scalar)
  | PArray (a : list scalar).

(** PAR header versions we claim to understand *)
Definition supported_versions : list string := ["V4.2"].

(** [_hdr_key_dict]: the short name and the type of a header entry. *)
Definition _hdr_key_dict : gmap string (string * field_type) :=
  list_to_map [
    ("Patient name", ("patient_name", TString));
    ("Examination name", ("exam_name", TString));
    ("Protocol name", ("protocol_name", TString));
    ("Examination date/time", ("exam_date", TString));
    ("Series Type", ("series_type", TString));
    ("Acquisition nr", ("acq_nr", TScalar int));
    ("Reconstruction nr", ("recon_nr", TScalar int));
    ("Scan Duration [sec]", ("scan_duration", TScalar float));
    ("Max. number of cardiac phases", ("max_cardiac_phases", TScalar int));
    ("Max. number of echoes", ("max_echoes", TScalar int));
    ("Max. number of slices/locations", ("max_slices", TScalar int));
    ("Max. number of dynamics", ("max_dynamics", TScalar int));
    ("Max. number of mixes", ("max_mixes", TScalar int));
    ("Patient position", ("patient_position", TString));
    ("Preparation direction", ("prep_direction", TString));
    ("Technique", ("tech", TString));
    ("Scan resolution  (x, y)", ("scan_resolution", TArray int 2));
    ("Scan mode", ("san_mode", TString));
    ("Repetition time [ms]", ("repetition_time", TScalar float));
    ("FOV (ap,fh,rl) [mm]", ("fov", TArray float 3));
    ("Water Fat shift [pixels]", ("water_fat_shift", TScalar float));
    ("Angulation midslice(ap,fh,rl)[degr]", ("angulation", TArray float 3));
    ("Off Centre midslice(ap,fh,rl) [mm]", ("off_center", TArray float 3));
    ("Flow compensation <0=no 1=yes> ?", ("flow_compensation", TScalar int));
    ("Presaturation     <0=no 1=yes> ?", ("presaturation", TScalar int));
    ("Phase encoding velocity [cm/sec]", ("phase_enc_velocity", TArray float 3));
    ("MTC               <0=no 1=yes> ?", ("mtc", TScalar int));
    ("SPIR              <0=no 1=yes> ?", ("spir", TScalar int));
    ("EPI factor        <0,1=no EPI>", ("epi_factor", TScalar int));
    ("Dynamic scan      <0=no 1=yes> ?", ("dyn_scan", TScalar int));
    ("Diffusion         <0=no 1=yes> ?", ("diffusion", TScalar int));
    ("Diffusion echo time [ms]", ("diffusion_echo_time", TScalar float));
    ("Max. number of diffusion values", ("max_diffusion_values", TScalar int));
    ("Max. number of gradient orients", ("max_gradient_orient", TScalar int));
    ("Number of label types   <0=no ASL>", ("nr_label_types", TScalar int))
  ].

(** [image_def_dtd]: header items order per image definition line. *)
Definition image_def_dtd : list (string * field_type) := [
  ("slice number", TScalar int);
  ("echo number", TScalar int);
  ("dynamic scan number", TScalar int);
  ("cardiac phase number", TScalar int);
  ("image_type_mr", TScalar int);
  ("scanning sequence", TScalar int);
  ("index in REC file", TScalar int);
  ("image pixel size", TScalar int);
  ("scan percentage", TScalar int);
  ("recon resolution", TArray int 2);
  ("rescale intercept", TScalar float);
  ("rescale slope", TScalar float);
  ("scale slope", TScalar float);
  ("window center", TScalar int);
  ("window width", TScalar int);
  ("image angulation", TArray float 3);
  ("image offcentre", TArray float 3);
  ("slice thickness", TScalar float);
  ("slice gap", TScalar float);
  ("image_display_orientation", TScalar int);
  ("slice orientation", TScalar int);
  ("fmri_status_indication", TScalar int);
  ("image_type_ed_es", TScalar int);
  ("pixel spacing", TArray float 2);
  ("echo_time", TScalar float);
  ("dyn_scan_begin_time", TScalar float);
  ("trigger_time", TScalar float);
  ("diffusion_b_factor", TScalar float);
  ("number of averages", TScalar int);
  ("image_flip_angle", TScalar float);
  ("cardiac frequency", TScalar int);
  ("minimum RR-interval", TScalar int);
  ("maximum RR-interval", TScalar int);
  ("TURBO factor", TScalar int);
  ("Inversion delay", TScalar float);
  ("diffusion b value number", TScalar int);
  ("gradient orientation number", TScalar int);
  ("contrast type", TString);
  ("diffusion anisotropy type", TString);
  ("diffusion", TArray float 3);
  ("label type", TScalar int)
].

(** The key and the value of a general-information line: what is before
    and what is after the first colon behind the leading dot. *)
Definition first_colon (line : string) : nat :=
  Z.to_nat (Str.find (Str.from 1 line) ":" + 1).

Definition entry_key (line : string) : string :=
  Str.strip (Str.slice 1 (first_colon line) line).

Definition entry_value (line : string) : string :=
  Str.strip (Str.from (first_colon line + 1) line).

(** The number of items of a line that the fields of a schema take. *)
Definition nitems (dtd : list (string * field_type)) : nat :=
  sum_list ((fun f => match f.2 with
                      | TArray _ n => n
                      | _ => 1%nat
                      end) <$> dtd).

(** The stripped lines that are neither comments nor general
    information nor empty. *)
Definition image_lines (lines : list string) : list string :=
  filter (fun line => Str.startswith line "#" = false
                      ∧ Str.startswith line "." = false
                      ∧ line ≠ EmptyString)
         (Str.strip <$> lines).

Section Parser.

(** Python's [int(s)] and [float(s)] and numpy's
    [np.fromstring(s, dtype, sep=' ')] are taken as given. *)
Variable py_int : string -> result Z.
Variable py_float : string -> result R.
Variable np_fromstring : conv -> string -> list scalar.

(** [props[1](value)] *)
Definition convert (c : conv) (s : string) : result scalar :=
  match c with
  | int => I <$> py_int s
  | float => F <$> py_float s
  end.

(** The value of a general-information entry: the string itself, its
    conversion, or the array read from it, which must have the number
    of elements of the declared shape. *)
Definition general_value (t : field_type) (value : string) : result parsed :=
  match t with
  | TString => Ok (PStr value)
  | TScalar c => PNum <$> convert c value
  | TArray c n =>
      let a := np_fromstring c value in
      if decide (length a = n) then Ok (PArray a) else Raise ValueError
  end.

(** What one line of the file does to the dictionary, to the list of
    image definition lines and to the warnings issued (the versions that
    are not supported). *)
Definition scan_line (line : string)
  (st : gmap string parsed * list string * list string)
  : result (gmap string parsed * list string * list string) :=
  let '(general_info, image_info, warned) := st in
  let line := Str.strip line in
  if Str.startswith line "#" then
    if Str.contains line "image export tool" then
      let version := default EmptyString (last (Str.split line)) in
      if decide (version ∈ supported_versions)
      then Ok (general_info, image_info, warned)
      else Ok (general_info, image_info, warned ++ [version])
    else Ok (general_info, image_info, warned)
  else if Str.startswith line "." then
    match _hdr_key_dict !! entry_key line with
    | None => Raise KeyError
    | Some (name, t) =>
        v ← general_value t (entry_value line);
        Ok (<[name := v]> general_info, image_info, warned)
    end
  else if decide (line = EmptyString) then Ok (general_info, image_info, warned)
  else Ok (general_info, image_info ++ [line], warned).

(** The single pass through the header. *)
Fixpoint scan_lines (lines : list string)
  (st : gmap string parsed * list string * list string)
  : result (gmap string parsed * list string * list string) :=
  match lines with
  | [] => Ok st
  | line :: rest => st ← scan_line line st; scan_lines rest st
  end.

(** The assignment of an array to a field of [n] elements: the array
    must have [n] elements, or one, which is repeated. *)
Definition assign_array (n : nat) (a : list scalar) : result (list scalar) :=
  if decide (length a = n) then Ok a
  else match a with
       | [x] => Ok (replicate n x)
       | _ => Raise ValueError
       end.

(** The properties of one image definition, from the items of its
    line, starting at [item_counter]; a string field keeps the item, cut
    to the 30 characters of its type. *)
Fixpoint decode_items (dtd : list (string * field_type)) (items : list string)
  (item_counter : nat) : result (list parsed) :=
  match dtd with
  | [] => Ok []
  | (_, t) :: dtd' =>
      match t with
      | TString =>
          s ← item items item_counter;
          rest ← decode_items dtd' items (item_counter + 1);
          Ok (PStr (Str.upto 30 s) :: rest)
      | TScalar c =>
          s ← item items item_counter;
          x ← convert c s;
          rest ← decode_items dtd' items (item_counter + 1);
          Ok (PNum x :: rest)
      | TArray c nelements =>
          let itms := take nelements (drop item_counter items) in
          let value := np_fromstring c (Str.join " " itms) in
          a ← assign_array nelements value;
          rest ← decode_items dtd' items (item_counter + nelements);
          Ok (PArray a :: rest)
      end
  end.

(** [parse_PAR_header(fobj)], [fobj] being the lines of the file: the
    dictionary, the image definitions (the fields of each in the order of
    [image_def_dtd]) and the warnings issued. *)
Definition parse_PAR_header (fobj : list string)
  : result (gmap string parsed * list (list parsed) * list string) :=
  '(general_info, image_info, warned) ← scan_lines fobj (∅, [], []);
  image_defs ← mapM (fun line => decode_items image_def_dtd (Str.split line) 0)
                  image_info;
  Ok (general_info, image_defs, warned).

End Parser.

(** Conversions for the examples.  On a decimal integer (digits, with or
    without a minus sign before them) they are [int], [float] and
    [np.fromstring]; they take no other string for a number. *)
Module Digits.

Definition py_int (s : string) : result Z :=
  match NilZero.int_of_string s with
  | Some i => Ok (Z.of_int i)
  | None => Raise ValueError
  end.

Definition py_float (s : string) : result R := IZR <$> py_int s.

Fixpoint numbers (c : conv) (items : list string) : list scalar :=
  match items with
  | [] => []
  | s :: rest =>
      match py_int s with
      | Ok z => (match c with int => I z | float => F (IZR z) end) :: numbers c rest
      | Raise _ => []
      end
  end.

Definition np_fromstring (c : conv) (s : string) : list scalar :=
  numbers c (Str.split s).

End Digits.

(** * Properties *)

(** ** [np.unique] *)

Section Unique.
Context {A : Type} `{NpScalar A}.

Lemma length_np_unique (a : list A) :
  length (np_unique a) = length (remove_dups a).
Proof.
  unfold np_unique. apply Permutation_length, merge_sort_Permutation.
Qed.

Lemma elem_of_np_unique (a : list A) (x : A) : x ∈ np_unique a ↔ x ∈ a.
Proof.
  unfold np_unique. rewrite merge_sort_Permutation. apply elem_of_remove_dups.
Qed.

Lemma NoDup_np_unique (a : list A) : NoDup (np_unique a).
Proof.
  unfold np_unique. rewrite merge_sort_Permutation. apply NoDup_remove_dups.
Qed.

(** A non-empty array holding one value only has that value as its
    unique values. *)
Lemma np_unique_const (a : list A) (v : A) :
  a ≠ [] → Forall (eq v) a → np_unique a = [v].
Proof.
  intros Hne Hall.
  pose proof (NoDup_np_unique a) as Hnd.
  assert (Hin : ∀ x, x ∈ np_unique a → x = v).
  { intros x Hx. rewrite elem_of_np_unique in Hx.
    rewrite Forall_forall in Hall. symmetry. by apply Hall. }
  assert (Hv : v ∈ np_unique a).
  { apply elem_of_np_unique. destruct a as [|x a']; [done|].
    inversion Hall; subst. left. }
  destruct (np_unique a) as [|x [|y l]].
  - inversion Hv.
  - f_equal. apply Hin. left.
  - exfalso. assert (x = v) by (apply Hin; left).
    assert (y = v) by (apply Hin; right; left). subst.
    inversion Hnd as [|?? Hni]; subst. apply Hni. left.
Qed.

(** Two different values in the array give at least two unique values. *)
Lemma np_unique_two (a : list A) (x y : A) :
  x ∈ a → y ∈ a → x ≠ y → (2 ≤ length (np_unique a))%nat.
Proof.
  intros Hx Hy Hne.
  rewrite <- elem_of_np_unique in Hx. rewrite <- elem_of_np_unique in Hy.
  destruct (np_unique a) as [|u [|w l]]; simpl.
  - inversion Hx.
  - apply list_elem_of_singleton in Hx. apply list_elem_of_singleton in Hy.
    congruence.
  - lia.
Qed.

Lemma length_np_unique_1 (a : list A) :
  length (np_unique a) = 1%nat ↔ ∃ v, a ≠ [] ∧ Forall (eq v) a.
Proof.
  split.
  - intros Hlen. destruct (np_unique a) as [|v [|]] eqn:E; try done.
    exists v. split.
    + intros ->. discriminate E.
    + apply Forall_forall. intros x Hx. rewrite <- elem_of_np_unique in Hx.
      rewrite E in Hx. apply list_elem_of_singleton in Hx. done.
  - intros (v & Hne & Hall). by rewrite (np_unique_const a v).
Qed.

(** ** [_get_unique_image_prop] on the array of a field *)

Lemma unique_image_prop_scalar_const (a : list A) (v : A) :
  a ≠ [] → Forall (eq v) a → unique_image_prop (Arr1 a) = Ok [v].
Proof.
  intros Hne Hall. unfold unique_image_prop. simpl.
  rewrite (np_unique_const a v Hne Hall). reflexivity.
Qed.

Lemma unique_image_prop_scalar_varying (a : list A) (x y : A) :
  x ∈ a → y ∈ a → x ≠ y → unique_image_prop (Arr1 a) = Raise PARRECError.
Proof.
  intros Hx Hy Hne. unfold unique_image_prop. simpl.
  pose proof (np_unique_two a x y Hx Hy Hne).
  case_decide; [lia | reflexivity].
Qed.

(** For a scalar field and a table with at least one record, the query
    fails exactly when the field takes two different values. *)
Lemma unique_image_prop_scalar_error (a : list A) :
  a ≠ [] →
  unique_image_prop (Arr1 a) = Raise PARRECError ↔ ∃ x y, x ∈ a ∧ y ∈ a ∧ x ≠ y.
Proof.
  intros Hne. split.
  - intros Herr. destruct a as [|x a']; [done|].
    destruct (decide (Forall (eq x) (x :: a'))) as [Hall|Hnall].
    + by rewrite (unique_image_prop_scalar_const _ x) in Herr.
    + apply not_Forall_Exists in Hnall; [|apply _].
      apply Exists_exists in Hnall as (y & Hy & Hxy).
      exists x, y. split; [left | done].
  - intros (x & y & Hx & Hy & Hxy).
    by apply (unique_image_prop_scalar_varying a x y).
Qed.

(** On a two-dimensional array the query reads the rows 0 and 1 only. *)
Lemma unique_image_prop_rows (r0 r1 : list A) (rest : list (list A)) :
  unique_image_prop (Arr2 (r0 :: r1 :: rest)) = unique_image_prop (Arr2 [r0; r1]).
Proof. reflexivity. Qed.

Lemma unique_image_prop_rows_const (r0 r1 : list A) (rest : list (list A)) (x y : A) :
  r0 ≠ [] → Forall (eq x) r0 → r1 ≠ [] → Forall (eq y) r1 →
  unique_image_prop (Arr2 (r0 :: r1 :: rest)) = Ok [x; y].
Proof.
  intros H0 Hx H1 Hy. unfold unique_image_prop. simpl.
  rewrite (np_unique_const r0 x H0 Hx), (np_unique_const r1 y H1 Hy).
  reflexivity.
Qed.

Lemma unique_image_prop_rows_mixed (r0 r1 : list A) (rest : list (list A)) (x y : A) :
  x ∈ r0 → y ∈ r0 → x ≠ y →
  unique_image_prop (Arr2 (r0 :: r1 :: rest)) = Raise PARRECError.
Proof.
  intros Hx Hy Hne. unfold unique_image_prop. simpl.
  pose proof (np_unique_two r0 x y Hx Hy Hne).
  case_decide as Hp; [|reflexivity].
  exfalso. destruct (length (np_unique r0)) as [|[|n]]; simpl in *; try lia.
Qed.

End Unique.

(** ** Volume completeness *)

Lemma is_volume_full_raises (seq : list Z) (slice_count slice_min : Z) (e : exn) :
  VolumeGrouper.is_volume_full seq slice_count slice_min = Raise e ↔
  e = ValueError ∧ ∃ v, v ∈ seq ∧ v < slice_min.
Proof.
  unfold VolumeGrouper.is_volume_full.
  case_decide as Hlow; rewrite Exists_exists in Hlow.
  - split; [intros [= <-]; eauto | intros [-> _]; reflexivity].
  - split; [discriminate | intros [_ ?]; contradiction].
Qed.

(** C1.  [is_volume_full(seq, slice_count, slice_min)] raises the range
    error exactly when some value of [seq] is strictly below [slice_min];
    when no value is below [slice_min] it returns, whatever values lie
    above [slice_min + slice_count - 1]; and the four documented calls
    give [True,True,True], [False,False,False], [True,True,True,True] and
    the range error. *)
Theorem is_volume_full_range_error :
  (∀ seq slice_count slice_min,
     VolumeGrouper.is_volume_full seq slice_count slice_min = Raise ValueError
     ↔ ∃ v, v ∈ seq ∧ v < slice_min) ∧
  (∀ seq slice_count slice_min,
     (∃ v, v ∈ seq ∧ v < slice_min) ∨
     ∃ full, VolumeGrouper.is_volume_full seq slice_count slice_min = Ok full) ∧
  VolumeGrouper.is_volume_full [3; 2; 1] 3 1 = Ok [true; true; true] ∧
  VolumeGrouper.is_volume_full [3; 2; 1] 4 1 = Ok [false; false; false] ∧
  VolumeGrouper.is_volume_full [3; 2; 0; 1] 3 0 = Ok [true; true; true; true] ∧
  VolumeGrouper.is_volume_full [2; 1; 0] 2 1 = Raise ValueError.
Proof.
  split; [|split; [|repeat split; vm_compute; reflexivity]].
  - intros seq n m. rewrite is_volume_full_raises. tauto.
  - intros seq n m.
    destruct (VolumeGrouper.is_volume_full seq n m) as [full|e] eqn:E.
    + right. eauto.
    + left. apply is_volume_full_raises in E. tauto.
Qed.

(** The cases of the tests of [vol_is_full] and [vol_numbers]. *)
Example vol_is_full_tests :
  VolumeGrouper.is_volume_full [4; 2; 1] 4 1 = Ok [false; false; false] ∧
  VolumeGrouper.is_volume_full [3; 2; 4; 1] 4 1 = Ok [true; true; true; true] ∧
  VolumeGrouper.is_volume_full [3; 2; 1] 3 0 = Ok [false; false; false] ∧
  VolumeGrouper.is_volume_full [3; 2; 1] 3 2 = Raise ValueError ∧
  VolumeGrouper.is_volume_full [3; 2; 1; 2; 3; 1] 3 1
    = Ok [true; true; true; true; true; true] ∧
  VolumeGrouper.is_volume_full [3; 2; 1; 2; 3] 3 1
    = Ok [true; true; true; false; false] ∧
  VolumeGrouper.occurrence_index [1; 3; 0; 0; 4] = [0; 0; 0; 1; 0]%nat ∧
  VolumeGrouper.occurrence_index [1; 3; 0; 3; 1; 0; 3; 1; 0]
    = [0; 0; 0; 1; 1; 1; 2; 2; 2]%nat.
Proof. repeat split; vm_compute; reflexivity. Qed.

(** ** Reading a header in the store *)

Section HeaderInStore.

Variables (σ : store) (self : loc) (h : PARRECHeader).
Variables (d : gmap string value) (a : list image_def).
Hypothesis Hself : σ !! self = Some (OHeader h).
Hypothesis Hinfo : σ !! general_info h = Some (ODict d).
Hypothesis Hdefs : σ !! image_defs h = Some (ONdarray a).

Lemma the_header_self : the_header σ self = Ok h.
Proof. unfold the_header. by rewrite Hself. Qed.

Lemma self_general_info_eq : self_general_info σ self = Ok d.
Proof.
  unfold self_general_info. rewrite the_header_self. simpl.
  unfold the_dict. by rewrite Hinfo.
Qed.

Lemma self_image_defs_eq : self_image_defs σ self = Ok a.
Proof.
  unfold self_image_defs. rewrite the_header_self. simpl.
  unfold the_array. by rewrite Hdefs.
Qed.

Lemma general_info_getitem_eq (key : string) (v : value) :
  d !! key = Some v → general_info_getitem σ self key = Ok v.
Proof.
  intros Hk. unfold general_info_getitem. rewrite self_general_info_eq.
  simpl. by rewrite Hk.
Qed.

Lemma _get_unique_image_prop_eq (name : string) :
  _get_unique_image_prop σ self name
  = (getitem a name ≫= unique_image_prop).
Proof.
  unfold _get_unique_image_prop. rewrite self_image_defs_eq. reflexivity.
Qed.

Lemma self_not_info : self ≠ general_info h.
Proof. intros E. rewrite <- E in Hinfo. congruence. Qed.

Lemma self_not_defs : self ≠ image_defs h.
Proof. intros E. rewrite <- E in Hdefs. congruence. Qed.

End HeaderInStore.

(** ** The columns of a regular table *)

Lemma getitem_columns (a : list image_def) :
  getitem a "slice number" = Ok (int_column slice_number a) ∧
  getitem a "dynamic scan number" = Ok (int_column dynamic_scan_number a) ∧
  getitem a "image pixel size" = Ok (int_column image_pixel_size a) ∧
  getitem a "rescale intercept" = Ok (float_column rescale_intercept a) ∧
  getitem a "rescale slope" = Ok (float_column rescale_slope a) ∧
  getitem a "scale slope" = Ok (float_column scale_slope a) ∧
  getitem a "slice thickness" = Ok (float_column slice_thickness a) ∧
  getitem a "slice gap" = Ok (float_column slice_gap a) ∧
  getitem a "slice orientation" = Ok (int_column slice_orientation a).
Proof. repeat split; reflexivity. Qed.

Lemma getitem_arrays (a : list image_def) :
  getitem a "recon resolution"
  = Ok (Arr2 ((fun d => [I (recon_resolution d).1; I (recon_resolution d).2]) <$> a)) ∧
  getitem a "image angulation"
  = Ok (Arr2 ((fun d => let '(x, y, z) := image_angulation d in [F x; F y; F z]) <$> a)) ∧
  getitem a "pixel spacing"
  = Ok (Arr2 ((fun d => [F (pixel_spacing d).1; F (pixel_spacing d).2]) <$> a)).
Proof. repeat split; reflexivity. Qed.

Lemma column_const {B} (f : image_def -> B) (mk : B -> scalar)
  (a : list image_def) (v : B) :
  a ≠ [] → Forall (fun r => f r = v) a →
  unique_image_prop (Arr1 ((fun r => mk (f r)) <$> a)) = Ok [mk v].
Proof.
  intros Hne Hall. apply unique_image_prop_scalar_const.
  - by destruct a.
  - apply Forall_fmap. eapply Forall_impl; [exact Hall|].
    intros r Hr. simpl. by rewrite Hr.
Qed.

Lemma column_varying {B} (f : image_def -> B) (mk : B -> scalar)
  (a : list image_def) (r1 r2 : image_def) :
  r1 ∈ a → r2 ∈ a → mk (f r1) ≠ mk (f r2) →
  unique_image_prop (Arr1 ((fun r => mk (f r)) <$> a)) = Raise PARRECError.
Proof.
  intros H1 H2 Hne.
  apply (unique_image_prop_scalar_varying _ (mk (f r1)) (mk (f r2))); [| |done].
  - apply (list_elem_of_fmap_2 (fun r => mk (f r))). done.
  - apply (list_elem_of_fmap_2 (fun r => mk (f r))). done.
Qed.

Lemma unique_image_prop_scalar_cases {A} `{NpScalar A} (a : list A) :
  a ≠ [] →
  (∃ v, unique_image_prop (Arr1 a) = Ok [v])
  ∨ unique_image_prop (Arr1 a) = Raise PARRECError.
Proof.
  intros Hne. destruct a as [|x a']; [done|].
  destruct (decide (Forall (eq x) (x :: a'))) as [Hall|Hnall].
  - left. exists x. by apply unique_image_prop_scalar_const.
  - right. apply unique_image_prop_scalar_error; [done|].
    apply not_Forall_Exists in Hnall; [|apply _].
    apply Exists_exists in Hnall as (y & Hy & Hxy).
    exists x, y. split; [left | done].
Qed.

(** ** Data scaling *)

Section Scaling.

Variables (σ : store) (self : loc) (h : PARRECHeader) (a : list image_def).
Hypothesis Hself : σ !! self = Some (OHeader h).
Hypothesis Hdefs : σ !! image_defs h = Some (ONdarray a).

Lemma scale_query (name : string) (f : image_def -> R) :
  getitem a name = Ok (float_column f a) →
  _get_unique_image_prop σ self name
  = unique_image_prop (Arr1 ((fun r => F (f r)) <$> a)).
Proof.
  intros Hcol. rewrite (_get_unique_image_prop_eq σ self h a Hself Hdefs).
  rewrite Hcol. reflexivity.
Qed.

Lemma get_data_scaling_uniform_dv (ss rs ri : R) :
  a ≠ [] →
  Forall (fun r => scale_slope r = ss) a →
  Forall (fun r => rescale_slope r = rs) a →
  Forall (fun r => rescale_intercept r = ri) a →
  get_data_scaling σ self "dv" = Ok ([rs], [ri]).
Proof.
  intros Hne Hss Hrs Hri. unfold get_data_scaling.
  destruct (getitem_columns a) as (_ & _ & _ & Ci & Cr & Cs & _).
  rewrite (scale_query _ _ Cs), (scale_query _ _ Cr), (scale_query _ _ Ci).
  rewrite (column_const scale_slope F a ss Hne Hss).
  rewrite (column_const rescale_slope F a rs Hne Hrs).
  rewrite (column_const rescale_intercept F a ri Hne Hri).
  reflexivity.
Qed.

Lemma get_data_scaling_uniform_fp (ss rs ri : R) :
  a ≠ [] →
  Forall (fun r => scale_slope r = ss) a →
  Forall (fun r => rescale_slope r = rs) a →
  Forall (fun r => rescale_intercept r = ri) a →
  get_data_scaling σ self "fp" = Ok ([(1 / ss)%R], [(ri / (rs * ss))%R]).
Proof.
  intros Hne Hss Hrs Hri. unfold get_data_scaling.
  destruct (getitem_columns a) as (_ & _ & _ & Ci & Cr & Cs & _).
  rewrite (scale_query _ _ Cs), (scale_query _ _ Cr), (scale_query _ _ Ci).
  rewrite (column_const scale_slope F a ss Hne Hss).
  rewrite (column_const rescale_slope F a rs Hne Hrs).
  rewrite (column_const rescale_intercept F a ri Hne Hri).
  reflexivity.
Qed.

Lemma get_data_scaling_varying_raises (r1 r2 : image_def) (method : string) :
  r1 ∈ a → r2 ∈ a →
  scale_slope r1 ≠ scale_slope r2
  ∨ rescale_slope r1 ≠ rescale_slope r2
  ∨ rescale_intercept r1 ≠ rescale_intercept r2 →
  get_data_scaling σ self method = Raise PARRECError.
Proof.
  intros H1 H2 Hvar.
  assert (Hcol : ∀ f : image_def -> R, (fun r => F (f r)) <$> a ≠ []).
  { intros f. destruct a; [inversion H1 | done]. }
  assert (Hraise : ∀ f : image_def -> R, f r1 ≠ f r2 →
            unique_image_prop (Arr1 ((fun r => F (f r)) <$> a)) = Raise PARRECError).
  { intros f Hf. apply (column_varying f F a r1 r2 H1 H2). congruence. }
  unfold get_data_scaling.
  destruct (getitem_columns a) as (_ & _ & _ & Ci & Cr & Cs & _).
  rewrite (scale_query _ _ Cs), (scale_query _ _ Cr), (scale_query _ _ Ci).
  destruct Hvar as [Hv|[Hv|Hv]].
  - by rewrite (Hraise scale_slope Hv).
  - destruct (unique_image_prop_scalar_cases _ (Hcol scale_slope)) as [[v ->]| ->];
      [|done]. simpl. by rewrite (Hraise rescale_slope Hv).
  - destruct (unique_image_prop_scalar_cases _ (Hcol scale_slope)) as [[v ->]| ->];
      [|done]. simpl.
    destruct (unique_image_prop_scalar_cases _ (Hcol rescale_slope)) as [[w ->]| ->];
      [|done]. simpl. by rewrite (Hraise rescale_intercept Hv).
Qed.

End Scaling.

(** ** The sample stores *)

Lemma alloc_fresh (σ : store) : σ !! alloc σ = None.
Proof. apply not_elem_of_dom. unfold alloc. apply is_fresh. Qed.

Lemma alloc_ne (σ : store) (l : loc) (o : obj) : σ !! l = Some o → alloc σ ≠ l.
Proof. intros Hl E. rewrite <- E, alloc_fresh in Hl. discriminate. Qed.

Section SampleStore.

Variables (d : gmap string value) (a : list image_def).

Lemma objects_info : Sample.objects d a !! 1%positive = Some (ODict d).
Proof. reflexivity. Qed.

Lemma objects_defs : Sample.objects d a !! 2%positive = Some (ONdarray a).
Proof. reflexivity. Qed.

Lemma with_header_self :
  Sample.with_header d a !! alloc (Sample.objects d a)
  = Some (OHeader (Sample.header int16)).
Proof. apply lookup_insert_eq. Qed.

Lemma with_header_info : Sample.with_header d a !! 1%positive = Some (ODict d).
Proof.
  unfold Sample.with_header. rewrite lookup_insert_ne; [apply objects_info|].
  apply (alloc_ne _ _ _ objects_info).
Qed.

Lemma with_header_defs : Sample.with_header d a !! 2%positive = Some (ONdarray a).
Proof.
  unfold Sample.with_header. rewrite lookup_insert_ne; [apply objects_defs|].
  apply (alloc_ne _ _ _ objects_defs).
Qed.

End SampleStore.

Lemma table_uniform (bits : Z) (f : image_def -> R) (v : R) :
  f (Sample.record 1 1 bits 2) = v →
  (∀ s dyn, f (Sample.record s dyn bits 2) = f (Sample.record 1 1 bits 2)) →
  Forall (fun r => f r = v) (Sample.table bits).
Proof.
  intros Hv Hsame. unfold Sample.table.
  repeat constructor; rewrite ?Hsame; exact Hv.
Qed.

(** C5.  When the three per-slice scale fields are uniform across the
    table of a header, [get_data_scaling] with method ['dv'] returns the
    rescale slope and the rescale intercept, and with method ['fp'] it
    returns [1/scale_slope] and
    [rescale_intercept/(rescale_slope * scale_slope)]. *)
Theorem get_data_scaling_uniform (σ : store) (self : loc) (h : PARRECHeader)
  (a : list image_def) (ss rs ri : R) :
  σ !! self = Some (OHeader h) →
  σ !! image_defs h = Some (ONdarray a) →
  a ≠ [] →
  Forall (fun r => scale_slope r = ss) a →
  Forall (fun r => rescale_slope r = rs) a →
  Forall (fun r => rescale_intercept r = ri) a →
  get_data_scaling σ self "dv" = Ok ([rs], [ri]) ∧
  get_data_scaling σ self "fp" = Ok ([(1 / ss)%R], [(ri / (rs * ss))%R]).
Proof.
  intros Hself Hdefs Hne Hss Hrs Hri. split.
  - by apply (get_data_scaling_uniform_dv σ self h a Hself Hdefs ss).
  - by apply (get_data_scaling_uniform_fp σ self h a Hself Hdefs).
Qed.

Lemma get_data_scaling_uniform_witness :
  let σ := Sample.with_header (Sample.info (V3 0 0 0)) (Sample.table 16) in
  let self := alloc (Sample.objects (Sample.info (V3 0 0 0)) (Sample.table 16)) in
  get_data_scaling σ self "dv" = Ok ([2%R], [0%R]) ∧
  get_data_scaling σ self "fp" = Ok ([(1 / 5)%R], [(0 / (2 * 5))%R]).
Proof.
  intros σ self.
  apply (get_data_scaling_uniform σ self (Sample.header int16) (Sample.table 16)).
  - apply with_header_self.
  - apply with_header_defs.
  - discriminate.
  - apply table_uniform; reflexivity.
  - apply table_uniform; reflexivity.
  - apply table_uniform; reflexivity.
Defined.

Lemma varying_slopes :
  Sample.record 1 1 16 2 ∈ Sample.varying ∧
  Sample.record 1 2 16 3 ∈ Sample.varying ∧
  rescale_slope (Sample.record 1 1 16 2) ≠ rescale_slope (Sample.record 1 2 16 3).
Proof.
  unfold Sample.varying. repeat split.
  - left.
  - right. right. left.
  - simpl. lra.
Qed.

(** C6, as the code has it.  When the scale slope, the rescale slope or
    the rescale intercept differs between two records of the table,
    [get_data_scaling] raises [PARRECError], whatever the method: varying
    per-slice scaling is not supported. *)
Theorem get_data_scaling_varying (σ : store) (self : loc) (h : PARRECHeader)
  (a : list image_def) (r1 r2 : image_def) (method : string) :
  σ !! self = Some (OHeader h) →
  σ !! image_defs h = Some (ONdarray a) →
  r1 ∈ a → r2 ∈ a →
  scale_slope r1 ≠ scale_slope r2
  ∨ rescale_slope r1 ≠ rescale_slope r2
  ∨ rescale_intercept r1 ≠ rescale_intercept r2 →
  get_data_scaling σ self method = Raise PARRECError.
Proof.
  intros Hself Hdefs H1 H2 Hvar.
  by apply (get_data_scaling_varying_raises σ self h a Hself Hdefs r1 r2).
Qed.

Lemma get_data_scaling_varying_witness :
  get_data_scaling
    (Sample.with_header (Sample.info (V3 0 0 0)) Sample.varying)
    (alloc (Sample.objects (Sample.info (V3 0 0 0)) Sample.varying)) "fp"
  = Raise PARRECError.
Proof.
  apply (get_data_scaling_varying _ _ (Sample.header int16) Sample.varying
           (Sample.record 1 1 16 2) (Sample.record 1 2 16 3)).
  - apply with_header_self.
  - apply with_header_defs.
  - apply varying_slopes.
  - apply varying_slopes.
  - right. left. apply varying_slopes.
Defined.

(** C6 fails as stated: on the sample table whose rescale slope is 2 in
    the first dynamic and 3 in the second, ['dv'] scaling is refused. *)
Lemma get_data_scaling_varying_counterexample :
  get_data_scaling
    (Sample.with_header (Sample.info (V3 0 0 0)) Sample.varying)
    (alloc (Sample.objects (Sample.info (V3 0 0 0)) Sample.varying)) "dv"
  = Raise PARRECError.
Proof.
  apply (get_data_scaling_varying_raises _ _ (Sample.header int16) Sample.varying
           (with_header_self _ _) (with_header_defs _ _)
           (Sample.record 1 1 16 2) (Sample.record 1 2 16 3)).
  - apply varying_slopes.
  - apply varying_slopes.
  - right. left. apply varying_slopes.
Qed.

(** ** Whole-series properties *)

Lemma angulation_rows (a : list image_def) (r0 r1 : image_def) (rest : list image_def)
  (x y z : R) :
  a = r0 :: r1 :: rest → image_angulation r0 = (x, y, z) →
  ∃ row1 rows,
    getitem a "image angulation" = Ok (Arr2 ([F x; F y; F z] :: row1 :: rows)).
Proof.
  intros -> H0. destruct (getitem_arrays (r0 :: r1 :: rest)) as (_ & -> & _).
  simpl. rewrite H0. eauto.
Qed.

(** With two records or more, a sub-array field whose first record holds
    two different elements is refused, even if every record holds the
    same array. *)
Lemma identical_arrays_refused (σ : store) (self : loc) (h : PARRECHeader)
  (r0 r1 : image_def) (rest : list image_def) (x y z : R) :
  σ !! self = Some (OHeader h) →
  σ !! image_defs h = Some (ONdarray (r0 :: r1 :: rest)) →
  image_angulation r0 = (x, y, z) → x ≠ y →
  _get_unique_image_prop σ self "image angulation" = Raise PARRECError.
Proof.
  intros Hself Hdefs H0 Hxy.
  rewrite (_get_unique_image_prop_eq σ self h _ Hself Hdefs).
  destruct (angulation_rows _ r0 r1 rest x y z eq_refl H0) as (row1 & rows & ->).
  simpl. apply (unique_image_prop_rows_mixed _ _ _ (F x) (F y)).
  - left.
  - right. left.
  - congruence.
Qed.

(** C7 at a failing input.  In the sample table every record holds the
    image angulation [(-13, 0, 0)], yet the query for ['image angulation']
    raises [PARRECError]. *)
Theorem identical_angulation_refused :
  Forall (fun r => image_angulation r = ((-13)%R, 0%R, 0%R)) (Sample.table 16) ∧
  _get_unique_image_prop
    (Sample.with_header (Sample.info (V3 0 0 0)) (Sample.table 16))
    (alloc (Sample.objects (Sample.info (V3 0 0 0)) (Sample.table 16)))
    "image angulation"
  = Raise PARRECError.
Proof.
  split.
  - repeat constructor.
  - eapply (identical_arrays_refused _ _ (Sample.header int16)).
    + apply with_header_self.
    + apply with_header_defs.
    + reflexivity.
    + lra.
Qed.

(** ** The methods on a regular series *)

Section Regular.

Variables (σ : store) (self : loc) (h : PARRECHeader).
Variables (d : gmap string value) (a : list image_def).
Hypothesis Hself : σ !! self = Some (OHeader h).
Hypothesis Hinfo : σ !! general_info h = Some (ODict d).
Hypothesis Hdefs : σ !! image_defs h = Some (ONdarray a).

Lemma query_scalar_int (name : string) (f : image_def -> Z) (v : Z) :
  getitem a name = Ok (int_column f a) →
  a ≠ [] → Forall (fun r => f r = v) a →
  _get_unique_image_prop σ self name = Ok [I v].
Proof.
  intros Hcol Hne Hall.
  rewrite (_get_unique_image_prop_eq σ self h a Hself Hdefs), Hcol.
  apply (column_const f I a v Hne Hall).
Qed.

Lemma query_scalar_float (name : string) (f : image_def -> R) (v : R) :
  getitem a name = Ok (float_column f a) →
  a ≠ [] → Forall (fun r => f r = v) a →
  _get_unique_image_prop σ self name = Ok [F v].
Proof.
  intros Hcol Hne Hall.
  rewrite (_get_unique_image_prop_eq σ self h a Hself Hdefs), Hcol.
  apply (column_const f F a v Hne Hall).
Qed.

Lemma count_unique_slices :
  count_unique σ self "slice number"
  = Ok (length (np_unique ((fun r => I (slice_number r)) <$> a))).
Proof.
  unfold count_unique. rewrite (self_image_defs_eq σ self h a Hself Hdefs).
  reflexivity.
Qed.

Lemma count_unique_dynamics :
  count_unique σ self "dynamic scan number"
  = Ok (length (np_unique ((fun r => I (dynamic_scan_number r)) <$> a))).
Proof.
  unfold count_unique. rewrite (self_image_defs_eq σ self h a Hself Hdefs).
  reflexivity.
Qed.

Lemma general_info_int (key : string) (z : Z) :
  d !! key = Some (VInt z) → general_info_getitem σ self key ≫= as_int = Ok z.
Proof.
  intros Hk. by rewrite (general_info_getitem_eq σ self h d Hself Hinfo key _ Hk).
Qed.

Lemma general_info_array (key : string) (v : vec3) :
  d !! key = Some (VArray v) → general_info_getitem σ self key ≫= as_array = Ok v.
Proof.
  intros Hk. by rewrite (general_info_getitem_eq σ self h d Hself Hinfo key _ Hk).
Qed.

(** The structural check of [get_data_shape_in_file]. *)
Lemma get_data_shape_in_file_mismatch (mdv mgo ms : Z) :
  d !! "max_diffusion_values" = Some (VInt mdv) →
  d !! "max_gradient_orient" = Some (VInt mgo) →
  d !! "max_slices" = Some (VInt ms) →
  Z.of_nat (length (np_unique ((fun r => I (slice_number r)) <$> a))) ≠ ms →
  get_data_shape_in_file σ self = Raise PARRECError.
Proof.
  intros Hmdv Hmgo Hms Hn. unfold get_data_shape_in_file.
  rewrite count_unique_dynamics. simpl.
  rewrite (general_info_int _ _ Hmdv). simpl.
  rewrite (general_info_int _ _ Hmgo). simpl.
  rewrite count_unique_slices. simpl.
  rewrite (general_info_int _ _ Hms). simpl.
  case_decide; [contradiction | reflexivity].
Qed.

Variables (r0 r1 : image_def) (rest : list image_def).
Hypothesis Ha : a = r0 :: r1 :: rest.

Variables (n0 n1 : Z) (p0 p1 thick gap : R).
Hypothesis Hn0 : recon_resolution r0 = (n0, n0).
Hypothesis Hn1 : recon_resolution r1 = (n1, n1).
Hypothesis Hp0 : pixel_spacing r0 = (p0, p0).
Hypothesis Hp1 : pixel_spacing r1 = (p1, p1).
Hypothesis Hthick : Forall (fun r => slice_thickness r = thick) a.
Hypothesis Hgap : Forall (fun r => slice_gap r = gap) a.

Lemma regular_nonempty : a ≠ [].
Proof. by rewrite Ha. Qed.

Lemma query_recon_resolution :
  _get_unique_image_prop σ self "recon resolution" = Ok [I n0; I n1].
Proof.
  rewrite (_get_unique_image_prop_eq σ self h a Hself Hdefs).
  destruct (getitem_arrays a) as (-> & _ & _). rewrite Ha. simpl.
  rewrite Hn0, Hn1. simpl.
  apply unique_image_prop_rows_const; try done; repeat constructor.
Qed.

Lemma query_pixel_spacing :
  _get_unique_image_prop σ self "pixel spacing" = Ok [F p0; F p1].
Proof.
  rewrite (_get_unique_image_prop_eq σ self h a Hself Hdefs).
  destruct (getitem_arrays a) as (_ & _ & ->). rewrite Ha. simpl.
  rewrite Hp0, Hp1. simpl.
  apply unique_image_prop_rows_const; try done; repeat constructor.
Qed.

Lemma get_voxel_size_regular : get_voxel_size σ self = Ok (V3 p0 p1 thick).
Proof.
  unfold get_voxel_size.
  destruct (getitem_columns a) as (_ & _ & _ & _ & _ & _ & Ct & _).
  rewrite (query_scalar_float _ _ thick Ct regular_nonempty Hthick). simpl.
  rewrite query_pixel_spacing. reflexivity.
Qed.

Variables (md mgo mdv : Z) (tr : R).
Hypothesis Hmd : d !! "max_dynamics" = Some (VInt md).
Hypothesis Hmgo : d !! "max_gradient_orient" = Some (VInt mgo).
Hypothesis Hmdv : d !! "max_diffusion_values" = Some (VInt mdv).
Hypothesis Htr : d !! "repetition_time" = Some (VFloat tr).
Hypothesis Hdynamic : 1 < md.

Lemma get_ndim_regular : get_ndim σ self = Ok 4%nat.
Proof.
  unfold get_ndim. rewrite (general_info_int _ _ Hmd). simpl.
  case_decide; [reflexivity | lia].
Qed.

Lemma _get_zooms_regular :
  _get_zooms σ self = Ok [p0; p1; (thick + gap)%R; (tr / 1000)%R].
Proof.
  unfold _get_zooms.
  destruct (getitem_columns a) as (_ & _ & _ & _ & _ & _ & _ & Cg & _).
  rewrite (query_scalar_float _ _ gap Cg regular_nonempty Hgap). simpl.
  rewrite get_ndim_regular. simpl.
  rewrite get_voxel_size_regular. simpl.
  rewrite (general_info_int _ _ Hmd). simpl.
  case_decide; [|lia].
  rewrite (general_info_getitem_eq σ self h d Hself Hinfo _ _ Htr).
  reflexivity.
Qed.

Variables (nslices ndynamics : nat).
Hypothesis Hslices :
  length (np_unique ((fun r => I (slice_number r)) <$> a)) = nslices.
Hypothesis Hdynamics :
  length (np_unique ((fun r => I (dynamic_scan_number r)) <$> a)) = ndynamics.
Hypothesis Hmax_slices : d !! "max_slices" = Some (VInt (Z.of_nat nslices)).
Hypothesis Hseveral : (1 < ndynamics)%nat.

Lemma get_data_shape_in_file_regular :
  get_data_shape_in_file σ self
  = Ok [I n0; I n1; I (Z.of_nat nslices); I (Z.of_nat ndynamics)].
Proof.
  unfold get_data_shape_in_file.
  rewrite count_unique_dynamics, Hdynamics. simpl.
  rewrite (general_info_int _ _ Hmdv). simpl.
  rewrite (general_info_int _ _ Hmgo). simpl.
  rewrite count_unique_slices, Hslices. simpl.
  rewrite (general_info_int _ _ Hmax_slices). simpl.
  case_decide; [|done].
  rewrite query_recon_resolution. simpl.
  case_decide; [reflexivity | lia].
Qed.

End Regular.

(** ** Construction *)

Section Construction.

Variables (σ0 : store) (self info defs : loc) (ds : string).
Variables (d : gmap string value) (a : list image_def).
Hypothesis Hfresh : σ0 !! self = None.
Hypothesis Hinfo0 : σ0 !! info = Some (ODict d).
Hypothesis Hdefs0 : σ0 !! defs = Some (ONdarray a).

Local Abbreviation σ1 := (<[self := OHeader (attributes info defs ds None)]> σ0).

Lemma partial_self : σ1 !! self = Some (OHeader (attributes info defs ds None)).
Proof. apply lookup_insert_eq. Qed.

Lemma partial_info : σ1 !! general_info (attributes info defs ds None) = Some (ODict d).
Proof. simpl. rewrite lookup_insert_ne; [done | congruence]. Qed.

Lemma partial_defs : σ1 !! image_defs (attributes info defs ds None) = Some (ONdarray a).
Proof. simpl. rewrite lookup_insert_ne; [done | congruence]. Qed.

Variables (bits : Z) (dt : dtype).
Hypothesis Hne : a ≠ [].
Hypothesis Hbits : Forall (fun r => image_pixel_size r = bits) a.
Hypothesis Hdt : typeDict ("int" +:+ NilZero.string_of_int (Z.to_int bits)) = Ok dt.

Lemma __init___pixel_size (k : dtype -> result store) :
  (u ← _get_unique_image_prop σ1 self "image pixel size";
   bits ← item u 0; digits ← str bits; dtype ← typeDict ("int" +:+ digits); k dtype)
  = k dt.
Proof.
  destruct (getitem_columns a) as (_ & _ & Cb & _).
  rewrite (query_scalar_int σ1 self _ a partial_self partial_defs _ _ bits Cb Hne Hbits).
  simpl. rewrite Hdt. reflexivity.
Qed.

(** Construction stops at the structural check when the number of
    distinct slice numbers is not [max_slices]. *)
Lemma __init___mismatch (mdv mgo ms : Z) :
  d !! "max_diffusion_values" = Some (VInt mdv) →
  d !! "max_gradient_orient" = Some (VInt mgo) →
  d !! "max_slices" = Some (VInt ms) →
  Z.of_nat (length (np_unique ((fun r => I (slice_number r)) <$> a))) ≠ ms →
  __init__ σ0 self info defs ds = Raise PARRECError.
Proof.
  intros Hmdv Hmgo Hms Hn. unfold __init__.
  rewrite __init___pixel_size.
  rewrite (get_data_shape_in_file_mismatch σ1 self _ d a
             partial_self partial_info partial_defs mdv mgo ms); done.
Qed.

Variables (r0 r1 : image_def) (rest : list image_def).
Variables (n0 n1 : Z) (p0 p1 thick gap : R) (md mgo mdv : Z) (tr : R).
Variables (nslices ndynamics : nat).
Hypothesis Ha : a = r0 :: r1 :: rest.
Hypothesis Hn0 : recon_resolution r0 = (n0, n0).
Hypothesis Hn1 : recon_resolution r1 = (n1, n1).
Hypothesis Hp0 : pixel_spacing r0 = (p0, p0).
Hypothesis Hp1 : pixel_spacing r1 = (p1, p1).
Hypothesis Hthick : Forall (fun r => slice_thickness r = thick) a.
Hypothesis Hgap : Forall (fun r => slice_gap r = gap) a.
Hypothesis Hmd : d !! "max_dynamics" = Some (VInt md).
Hypothesis Hmgo : d !! "max_gradient_orient" = Some (VInt mgo).
Hypothesis Hmdv : d !! "max_diffusion_values" = Some (VInt mdv).
Hypothesis Htr : d !! "repetition_time" = Some (VFloat tr).
Hypothesis Hdynamic : 1 < md.
Hypothesis Hslices :
  length (np_unique ((fun r => I (slice_number r)) <$> a)) = nslices.
Hypothesis Hdynamics :
  length (np_unique ((fun r => I (dynamic_scan_number r)) <$> a)) = ndynamics.
Hypothesis Hmax_slices : d !! "max_slices" = Some (VInt (Z.of_nat nslices)).
Hypothesis Hseveral : (1 < ndynamics)%nat.

(** On a regular dynamic series construction succeeds. *)
Lemma __init___regular :
  __init__ σ0 self info defs ds
  = Ok (<[self := OHeader (attributes info defs ds
            (Some {| _dtype := dt;
                     _shape := [I n0; I n1; I (Z.of_nat nslices); I (Z.of_nat ndynamics)];
                     _zooms := [p0; p1; (thick + gap)%R; (tr / 1000)%R] |}))]> σ0).
Proof.
  unfold __init__. rewrite __init___pixel_size.
  erewrite (get_data_shape_in_file_regular σ1 self _ d a
              partial_self partial_info partial_defs r0 r1 rest Ha n0 n1); try eassumption.
  simpl.
  erewrite (_get_zooms_regular σ1 self _ d a
              partial_self partial_info partial_defs r0 r1 rest Ha p0 p1 thick gap);
    try eassumption.
  simpl. by rewrite insert_insert_eq.
Qed.

End Construction.

Lemma sample_info_lookups (off_center : vec3) :
  Sample.info off_center !! "max_slices" = Some (VInt 2) ∧
  Sample.info off_center !! "max_dynamics" = Some (VInt 2) ∧
  Sample.info off_center !! "max_gradient_orient" = Some (VInt 1) ∧
  Sample.info off_center !! "max_diffusion_values" = Some (VInt 1) ∧
  Sample.info off_center !! "repetition_time" = Some (VFloat 2000) ∧
  Sample.info off_center !! "angulation" = Some (VArray (V3 0 0 0)) ∧
  Sample.info off_center !! "fov" = Some (VArray (V3 256 16 256)) ∧
  Sample.info off_center !! "off_center" = Some (VArray off_center).
Proof. repeat split; reflexivity. Qed.

Lemma sample_counts (bits : Z) :
  length (np_unique ((fun r => I (slice_number r)) <$> Sample.table bits)) = 2%nat ∧
  length (np_unique ((fun r => I (dynamic_scan_number r)) <$> Sample.table bits)) = 2%nat ∧
  length (np_unique ((fun r => I (slice_number r)) <$> Sample.truncated bits)) = 2%nat ∧
  length (np_unique ((fun r => I (dynamic_scan_number r)) <$> Sample.truncated bits)) = 2%nat ∧
  length (np_unique ((fun r => I (slice_number r)) <$> Sample.single_truncated)) = 1%nat.
Proof. repeat split; vm_compute; reflexivity. Qed.

(** The constructor on the complete sample table. *)
Lemma sample_table_new (off_center : vec3) (bits : Z) (dt : dtype) :
  typeDict ("int" +:+ NilZero.string_of_int (Z.to_int bits)) = Ok dt →
  let σ := Sample.objects (Sample.info off_center) (Sample.table bits) in
  PARRECHeader_new σ 1%positive 2%positive "dv"
  = Ok (alloc σ, <[alloc σ := OHeader (Sample.header dt)]> σ).
Proof.
  intros Hdt σ. unfold PARRECHeader_new.
  destruct (sample_info_lookups off_center) as (Hms & Hmd & Hmgo & Hmdv & Htr & _).
  destruct (sample_counts bits) as (Hs & Hd & _).
  rewrite (__init___regular σ (alloc σ) 1%positive 2%positive "dv"
             (Sample.info off_center) (Sample.table bits)
             (alloc_fresh σ) (objects_info _ _) (objects_defs _ _) bits dt
             ltac:(discriminate) ltac:(repeat constructor) Hdt
             _ _ _ 64 64 4%R 4%R 6%R 2%R 2 1 1 2000%R 2%nat 2%nat
             eq_refl eq_refl eq_refl eq_refl eq_refl
             ltac:(repeat constructor) ltac:(repeat constructor)
             Hmd Hmgo Hmdv Htr ltac:(lia) Hs Hd Hms ltac:(lia)).
  reflexivity.
Qed.

(** The constructor on the sample table without its final record. *)
Lemma sample_truncated_new (off_center : vec3) :
  let σ := Sample.objects (Sample.info off_center) (Sample.truncated 16) in
  PARRECHeader_new σ 1%positive 2%positive "dv"
  = Ok (alloc σ, <[alloc σ := OHeader (Sample.header int16)]> σ).
Proof.
  intros σ. unfold PARRECHeader_new.
  destruct (sample_info_lookups off_center) as (Hms & Hmd & Hmgo & Hmdv & Htr & _).
  destruct (sample_counts 16) as (_ & _ & Hs & Hd & _).
  rewrite (__init___regular σ (alloc σ) 1%positive 2%positive "dv"
             (Sample.info off_center) (Sample.truncated 16)
             (alloc_fresh σ) (objects_info _ _) (objects_defs _ _) 16 int16
             ltac:(discriminate) ltac:(repeat constructor) eq_refl
             _ _ _ 64 64 4%R 4%R 6%R 2%R 2 1 1 2000%R 2%nat 2%nat
             eq_refl eq_refl eq_refl eq_refl eq_refl
             ltac:(repeat constructor) ltac:(repeat constructor)
             Hmd Hmgo Hmdv Htr ltac:(lia) Hs Hd Hms ltac:(lia)).
  reflexivity.
Qed.

Lemma PARRECHeader_new_mismatch (σ : store) (info defs : loc) (ds : string)
  (d : gmap string value) (a : list image_def) (bits : Z) (dt : dtype)
  (mdv mgo ms : Z) :
  σ !! info = Some (ODict d) →
  σ !! defs = Some (ONdarray a) →
  a ≠ [] →
  Forall (fun r => image_pixel_size r = bits) a →
  typeDict ("int" +:+ NilZero.string_of_int (Z.to_int bits)) = Ok dt →
  d !! "max_diffusion_values" = Some (VInt mdv) →
  d !! "max_gradient_orient" = Some (VInt mgo) →
  d !! "max_slices" = Some (VInt ms) →
  Z.of_nat (length (np_unique ((fun r => I (slice_number r)) <$> a))) ≠ ms →
  PARRECHeader_new σ info defs ds = Raise PARRECError.
Proof.
  intros Hinfo Hdefs Hne Hbits Hdt Hmdv Hmgo Hms Hn. unfold PARRECHeader_new.
  by rewrite (__init___mismatch σ (alloc σ) info defs ds d a (alloc_fresh σ)
                Hinfo Hdefs bits dt Hne Hbits Hdt mdv mgo ms Hmdv Hmgo Hms Hn).
Qed.

(** C2 at a failing input.  The sample table of two volumes is well
    formed and the constructor accepts it.  Without the final record of
    its last volume the default construction does not fail: it gives the
    same header, with the shape of two volumes. *)
Theorem truncated_table_accepted :
  Sample.truncated 16 = removelast (Sample.table 16) ∧
  (let σ := Sample.objects (Sample.info (V3 0 0 0)) (Sample.table 16) in
   PARRECHeader_new σ 1%positive 2%positive "dv"
   = Ok (alloc σ, <[alloc σ := OHeader (Sample.header int16)]> σ)) ∧
  (let σ := Sample.objects (Sample.info (V3 0 0 0)) (Sample.truncated 16) in
   PARRECHeader_new σ 1%positive 2%positive "dv"
   = Ok (alloc σ, <[alloc σ := OHeader (Sample.header int16)]> σ)) ∧
  base (Sample.header int16) ≫= (fun b => Some (_shape b))
  = Some [I 64; I 64; I 2; I 2].
Proof.
  split; [reflexivity|]. split; [|split].
  - by apply sample_table_new.
  - apply sample_truncated_new.
  - reflexivity.
Qed.

(** C8 at a failing input.  On the sample table with the uniform pixel
    size 32 the constructor succeeds, with the data type [int32]. *)
Theorem pixel_size_32_accepted :
  Forall (fun r => image_pixel_size r = 32) (Sample.table 32) ∧
  let σ := Sample.objects (Sample.info (V3 0 0 0)) (Sample.table 32) in
  PARRECHeader_new σ 1%positive 2%positive "dv"
  = Ok (alloc σ, <[alloc σ := OHeader (Sample.header int32)]> σ).
Proof.
  split; [repeat constructor|]. by apply sample_table_new.
Qed.

(** A pixel size of 24 fails in the lookup of the data type, with
    [KeyError]. *)
Lemma pixel_size_24_key_error :
  let σ := Sample.objects (Sample.info (V3 0 0 0)) (Sample.table 24) in
  PARRECHeader_new σ 1%positive 2%positive "dv" = Raise KeyError.
Proof.
  intros σ. unfold PARRECHeader_new, __init__.
  destruct (getitem_columns (Sample.table 24)) as (_ & _ & Cb & _).
  rewrite (query_scalar_int _ (alloc σ) _ (Sample.table 24)
             (partial_self σ _ _ _ _) (partial_defs σ _ _ _ _ _ (alloc_fresh σ)
                                         (objects_defs _ _))
             _ _ 24 Cb ltac:(discriminate) ltac:(repeat constructor)).
  reflexivity.
Qed.

(** ** The slice orientation and its cache *)

Lemma get_slice_orientation_cached (σ : store) (self : loc) (h : PARRECHeader)
  (label : string) :
  σ !! self = Some (OHeader h) → _slice_orientation h = Some label →
  get_slice_orientation σ self = Ok (label, σ).
Proof.
  intros Hself Hc. unfold get_slice_orientation.
  rewrite (the_header_self σ self h Hself). simpl. by rewrite Hc.
Qed.

Lemma get_slice_orientation_first (σ : store) (self : loc) (h : PARRECHeader)
  (a : list image_def) (code : Z) (label : string) :
  σ !! self = Some (OHeader h) →
  σ !! image_defs h = Some (ONdarray a) →
  _slice_orientation h = None →
  a ≠ [] → Forall (fun r => slice_orientation r = code) a →
  slice_orientation_label (I code) = Ok label →
  get_slice_orientation σ self
  = Ok (label, <[self := OHeader (set_slice_orientation h label)]> σ).
Proof.
  intros Hself Hdefs Hc Hne Hall Hl. unfold get_slice_orientation.
  rewrite (the_header_self σ self h Hself). simpl. rewrite Hc.
  destruct (getitem_columns a) as (_ & _ & _ & _ & _ & _ & _ & _ & Co).
  rewrite (query_scalar_int σ self h a Hself Hdefs _ _ code Co Hne Hall).
  simpl. by rewrite Hl.
Qed.

(** Once a query has succeeded, the label is in the instance. *)
Lemma get_slice_orientation_stores (σ σ1 : store) (self : loc) (label : string) :
  get_slice_orientation σ self = Ok (label, σ1) →
  ∃ h, σ1 !! self = Some (OHeader h) ∧ _slice_orientation h = Some label.
Proof.
  unfold get_slice_orientation, the_header. intros Hq.
  destruct (σ !! self) as [[| |h|]|] eqn:Hself; try discriminate. simpl in Hq.
  destruct (_slice_orientation h) as [l|] eqn:Hc.
  - injection Hq as <- <-. eauto.
  - destruct (_get_unique_image_prop σ self "slice orientation") as [u|]; [|done].
    simpl in Hq. destruct (item u 0) as [c|]; [|done]. simpl in Hq.
    destruct (slice_orientation_label c) as [l|]; [|done]. simpl in Hq.
    injection Hq as <- <-. eexists. split; [apply lookup_insert_eq | reflexivity].
Qed.

Lemma get_slice_orientation_again (σ σ1 σ2 : store) (self : loc) (label : string) :
  get_slice_orientation σ self = Ok (label, σ1) →
  σ2 !! self = σ1 !! self →
  get_slice_orientation σ2 self = Ok (label, σ2).
Proof.
  intros Hq Hsame.
  destruct (get_slice_orientation_stores σ σ1 self label Hq) as (h & Hh & Hc).
  rewrite Hh in Hsame.
  by apply (get_slice_orientation_cached σ2 self h).
Qed.

(** ** The affine *)

Section AffineProperties.

Variable e : R -> R -> R -> mat3.

(** The affine relative to the scanner is the affine relative to the
    field of view with [iso_offset] added to the translation. *)
Lemma get_affine_scanner_fov (σ : store) (self : loc) :
  get_affine e σ self "scanner"
  = '(aff, σ1) ← get_affine e σ self "fov";
    off_center ← general_info_getitem σ1 self "off_center" ≫= as_array;
    Ok (M4 (a_rzs aff) (vadd (a_trans aff) (iso_offset off_center)) (a_bottom aff), σ1).
Proof.
  unfold get_affine.
  destruct (general_info_getitem σ self "angulation" ≫= as_array) as [ang|]; [|done].
  simpl. case_decide; [|done].
  destruct (general_info_getitem σ self "fov" ≫= as_array) as [fov|]; [|done].
  simpl. destruct (get_voxel_size σ self) as [vs|]; [|done]. simpl.
  destruct (get_slice_orientation σ self) as [[so σ1]|]; [|done]. simpl.
  destruct (recfg_data_axis so fov) as [[rc fv]|]; [|done]. simpl.
  destruct (get_voxel_size σ1 self) as [vs1|]; [|done]. simpl.
  destruct (get_zooms σ1 self) as [zs|]; [|done]. simpl.
  destruct (diag (take 3 zs)) as [zd|]; [|done]. simpl.
  reflexivity.
Qed.

(** [get_affine] writes nothing to the store but the slice orientation. *)
Lemma get_affine_store (σ σ1 σ' : store) (self : loc) (origin label : string)
  (aff : mat4) :
  get_slice_orientation σ self = Ok (label, σ1) →
  get_affine e σ self origin = Ok (aff, σ') → σ' = σ1.
Proof.
  intros Hso. unfold get_affine.
  destruct (general_info_getitem σ self "angulation" ≫= as_array) as [ang|]; [|done].
  simpl. case_decide; [|done].
  destruct (general_info_getitem σ self "fov" ≫= as_array) as [fov|]; [|done].
  simpl. destruct (get_voxel_size σ self) as [vs|]; [|done]. simpl.
  rewrite Hso. simpl.
  destruct (recfg_data_axis label fov) as [[rc fv]|]; [|done]. simpl.
  destruct (get_voxel_size σ1 self) as [vs1|]; [|done]. simpl.
  destruct (get_zooms σ1 self) as [zs|]; [|done]. simpl.
  destruct (diag (take 3 zs)) as [zd|]; [|done]. simpl.
  repeat case_decide.
  - by intros [= _ <-].
  - destruct (general_info_getitem σ1 self "off_center" ≫= as_array); [|done].
    by intros [= _ <-].
  - by intros [= _ <-].
Qed.

End AffineProperties.

(** The FH component of the off-centre vector is multiplied by 0. *)
Lemma iso_offset_eq (ap fh rl : R) :
  iso_offset (V3 ap fh rl) = V3 (- rl) (- ap) 0.
Proof. unfold iso_offset, vmul, vmap2. simpl. f_equal; lra. Qed.

(** ** The affine of the sample header *)

Lemma sample_table_regular :
  Forall (fun r => slice_thickness r = 6%R) (Sample.table 16) ∧
  Forall (fun r => slice_gap r = 2%R) (Sample.table 16) ∧
  Forall (fun r => slice_orientation r = 1) (Sample.table 16).
Proof. repeat split; repeat constructor. Qed.

(** The affine relative to the field of view does not depend on the
    off-centre vector; [σ1] is the store left by the orientation query. *)
Lemma sample_affine_fov :
  ∃ aff : mat4, ∀ (off_center : vec3) (σ σ1 : store) (self : loc) (h h1 : PARRECHeader),
    σ !! self = Some (OHeader h) →
    σ !! general_info h = Some (ODict (Sample.info off_center)) →
    σ !! image_defs h = Some (ONdarray (Sample.table 16)) →
    get_slice_orientation σ self = Ok ("transversal", σ1) →
    σ1 !! self = Some (OHeader h1) →
    σ1 !! general_info h1 = Some (ODict (Sample.info off_center)) →
    σ1 !! image_defs h1 = Some (ONdarray (Sample.table 16)) →
    base h1 = base (Sample.header int16) →
    get_affine euler2mat σ self "fov" = Ok (aff, σ1).
Proof.
  eexists. intros off σ σ1 self h h1 Hself Hinfo Hdefs Hso Hself1 Hinfo1 Hdefs1 Hbase.
  destruct (sample_info_lookups off) as (_ & _ & _ & _ & _ & Hang & Hfov & _).
  destruct sample_table_regular as (Hthick & _ & _).
  unfold get_affine.
  rewrite (general_info_array σ self h _ Hself Hinfo _ _ Hang). simpl.
  case_decide as Hassert; [|exfalso; apply Hassert; reflexivity].
  rewrite (general_info_array σ self h _ Hself Hinfo _ _ Hfov). simpl.
  rewrite (get_voxel_size_regular σ self h _ Hself Hdefs _ _ _ eq_refl
             4%R 4%R 6%R eq_refl eq_refl Hthick). simpl.
  rewrite Hso. simpl.
  rewrite (get_voxel_size_regular σ1 self h1 _ Hself1 Hdefs1 _ _ _ eq_refl
             4%R 4%R 6%R eq_refl eq_refl Hthick). simpl.
  unfold get_zooms. rewrite (the_header_self σ1 self h1 Hself1). simpl.
  rewrite Hbase. simpl. reflexivity.
Qed.

(** The first query on the sample header, and a query after the
    dictionary has been replaced in place. *)
Lemma sample_first_query (off_center : vec3) :
  let σ := Sample.with_header (Sample.info off_center) (Sample.table 16) in
  let self := alloc (Sample.objects (Sample.info off_center) (Sample.table 16)) in
  get_slice_orientation σ self
  = Ok ("transversal",
        <[self := OHeader (set_slice_orientation (Sample.header int16) "transversal")]> σ).
Proof.
  intros σ self.
  apply (get_slice_orientation_first σ self _ (Sample.table 16) 1).
  - apply with_header_self.
  - apply with_header_defs.
  - reflexivity.
  - discriminate.
  - apply sample_table_regular.
  - reflexivity.
Qed.

Lemma sample_self_not_objects (d : gmap string value) (a : list image_def) :
  alloc (Sample.objects d a) ≠ 1%positive ∧ alloc (Sample.objects d a) ≠ 2%positive.
Proof.
  split.
  - apply (alloc_ne _ _ _ (objects_info d a)).
  - apply (alloc_ne _ _ _ (objects_defs d a)).
Qed.

(** The affine of the sample header, relative to the field of view and
    to the scanner, for any off-centre vector in the dictionary at the
    time of the query. *)
Lemma sample_affine (off0 : vec3) :
  ∃ aff : mat4, ∀ (off_center : vec3) (σ : store),
    let self := alloc (Sample.objects (Sample.info off0) (Sample.table 16)) in
    (σ = Sample.with_header (Sample.info off0) (Sample.table 16) ∧ off_center = off0)
    ∨ σ = <[1%positive := ODict (Sample.info off_center)]>
            (<[self := OHeader (set_slice_orientation (Sample.header int16) "transversal")]>
               (Sample.with_header (Sample.info off0) (Sample.table 16))) →
    ∃ σ1,
      get_affine euler2mat σ self "fov" = Ok (aff, σ1) ∧
      get_affine euler2mat σ self "scanner"
      = Ok (M4 (a_rzs aff) (vadd (a_trans aff) (iso_offset off_center)) (a_bottom aff), σ1).
Proof.
  destruct sample_affine_fov as (aff & Haff). exists aff.
  intros off σ self Hσ.
  destruct (sample_self_not_objects (Sample.info off0) (Sample.table 16)) as (N1 & N2).
  fold self in N1, N2.
  destruct (sample_info_lookups off) as (_ & _ & _ & _ & _ & _ & _ & Hoff).
  assert (∃ h h1 σ1,
    σ !! self = Some (OHeader h) ∧
    σ !! general_info h = Some (ODict (Sample.info off)) ∧
    σ !! image_defs h = Some (ONdarray (Sample.table 16)) ∧
    get_slice_orientation σ self = Ok ("transversal", σ1) ∧
    σ1 !! self = Some (OHeader h1) ∧
    σ1 !! general_info h1 = Some (ODict (Sample.info off)) ∧
    σ1 !! image_defs h1 = Some (ONdarray (Sample.table 16)) ∧
    base h1 = base (Sample.header int16)) as (h & h1 & σ1 & H1 & H2 & H3 & H4 & H5 & H6 & H7 & H8).
  { destruct Hσ as [[-> ->]| ->].
    - exists (Sample.header int16),
        (set_slice_orientation (Sample.header int16) "transversal"). eexists.
      split; [apply with_header_self|].
      split; [apply with_header_info|].
      split; [apply with_header_defs|].
      split; [apply sample_first_query|].
      split; [apply lookup_insert_eq|].
      split; [simpl; rewrite lookup_insert_ne by done; apply with_header_info|].
      split; [simpl; rewrite lookup_insert_ne by done; apply with_header_defs|].
      reflexivity.
    - exists (set_slice_orientation (Sample.header int16) "transversal"),
        (set_slice_orientation (Sample.header int16) "transversal"). eexists.
      assert (Hs : (<[1%positive := ODict (Sample.info off)]>
         (<[self := OHeader (set_slice_orientation (Sample.header int16) "transversal")]>
            (Sample.with_header (Sample.info off0) (Sample.table 16)))) !! self
         = Some (OHeader (set_slice_orientation (Sample.header int16) "transversal"))).
      { rewrite lookup_insert_ne by done. apply lookup_insert_eq. }
      assert (Hd : (<[1%positive := ODict (Sample.info off)]>
         (<[self := OHeader (set_slice_orientation (Sample.header int16) "transversal")]>
            (Sample.with_header (Sample.info off0) (Sample.table 16)))) !! 2%positive
         = Some (ONdarray (Sample.table 16))).
      { rewrite lookup_insert_ne by done. rewrite lookup_insert_ne by done.
        apply with_header_defs. }
      split; [exact Hs|].
      split; [apply lookup_insert_eq|].
      split; [exact Hd|].
      split; [by apply (get_slice_orientation_cached _ _ _ _ Hs)|].
      split; [exact Hs|].
      split; [apply lookup_insert_eq|].
      split; [exact Hd|].
      reflexivity. }
  exists σ1.
  pose proof (Haff off σ σ1 self h h1 H1 H2 H3 H4 H5 H6 H7 H8) as Hfov.
  split; [exact Hfov|].
  rewrite get_affine_scanner_fov, Hfov. simpl.
  by rewrite (general_info_array σ1 self h1 _ H5 H6 _ _ Hoff).
Qed.

Lemma vadd_zero_offset (t : vec3) (fh : R) : vadd t (iso_offset (V3 0 fh 0)) = t.
Proof.
  rewrite iso_offset_eq. destruct t as [t0 t1 t2].
  unfold vadd, vmap2. simpl. f_equal; lra.
Qed.

(** C4 at a failing input.  With the off-centre vector (ap, fh, rl) =
    (0, 5, 0) in the dictionary of the sample header, the affine relative
    to the scanner is the affine relative to the field of view: the FH
    component does not reach the translation. *)
Theorem scanner_origin_ignores_fh :
  let σ := Sample.with_header (Sample.info (V3 0 5 0)) (Sample.table 16) in
  let self := alloc (Sample.objects (Sample.info (V3 0 5 0)) (Sample.table 16)) in
  ∃ aff σ1,
    get_affine euler2mat σ self "fov" = Ok (aff, σ1) ∧
    get_affine euler2mat σ self "scanner" = Ok (aff, σ1).
Proof.
  intros σ self.
  destruct (sample_affine (V3 0 5 0)) as (aff & Haff).
  destruct (Haff (V3 0 5 0) σ (or_introl (conj eq_refl eq_refl))) as (σ1 & Hfov & Hsc).
  exists aff, σ1. split; [exact Hfov|].
  fold self in Hsc. rewrite Hsc, vadd_zero_offset. by destruct aff.
Qed.

(** C9, as the code has it.  The slice orientation label is memoized:
    once a query has returned it, every later query returns the same
    label and leaves the store as it is, whatever has happened to the
    dictionary and to the table, as long as the instance itself is as the
    query left it.  [get_affine] keeps no affine: the only thing it writes
    is that label. *)
Theorem slice_orientation_memoized (e : R -> R -> R -> mat3) (σ σ1 : store)
  (self : loc) (label : string) :
  get_slice_orientation σ self = Ok (label, σ1) →
  (∀ σ2, σ2 !! self = σ1 !! self → get_slice_orientation σ2 self = Ok (label, σ2)) ∧
  (∀ origin aff σ', get_affine e σ self origin = Ok (aff, σ') → σ' = σ1).
Proof.
  intros Hq. split.
  - intros σ2 Hsame. by apply (get_slice_orientation_again σ σ1 σ2).
  - intros origin aff σ' Haff. by apply (get_affine_store e σ σ1 σ' self origin label aff).
Qed.

Lemma slice_orientation_memoized_witness :
  let σ := Sample.with_header (Sample.info (V3 0 0 0)) (Sample.table 16) in
  let self := alloc (Sample.objects (Sample.info (V3 0 0 0)) (Sample.table 16)) in
  let σ1 := <[self := OHeader (set_slice_orientation (Sample.header int16) "transversal")]> σ in
  (∀ σ2, σ2 !! self = σ1 !! self → get_slice_orientation σ2 self = Ok ("transversal", σ2)) ∧
  (∀ origin aff σ', get_affine euler2mat σ self origin = Ok (aff, σ') → σ' = σ1).
Proof.
  intros σ self σ1.
  apply (slice_orientation_memoized euler2mat σ σ1 self "transversal").
  apply sample_first_query.
Defined.

(** C9 fails as stated for the affine: a query, then the off-centre
    vector replaced in the dictionary, then a second query, which returns
    another affine. *)
Lemma affine_recomputed_counterexample :
  let σ := Sample.with_header (Sample.info (V3 0 0 0)) (Sample.table 16) in
  let self := alloc (Sample.objects (Sample.info (V3 0 0 0)) (Sample.table 16)) in
  ∃ aff1 σ1 aff2 σ2,
    get_affine euler2mat σ self "scanner" = Ok (aff1, σ1) ∧
    get_affine euler2mat (<[1%positive := ODict (Sample.info (V3 0 0 1))]> σ1)
      self "scanner" = Ok (aff2, σ2) ∧
    aff1 ≠ aff2.
Proof.
  intros σ self.
  destruct (sample_affine (V3 0 0 0)) as (aff & Haff).
  destruct (Haff (V3 0 0 0) σ (or_introl (conj eq_refl eq_refl))) as (σ1 & Hfov & Hsc).
  fold self in Hfov, Hsc.
  assert (Hσ1 : σ1 = <[self := OHeader (set_slice_orientation (Sample.header int16)
                                          "transversal")]> σ).
  { apply (get_affine_store euler2mat σ _ σ1 self "fov" "transversal" aff).
    - apply sample_first_query.
    - exact Hfov. }
  destruct (Haff (V3 0 0 1) (<[1%positive := ODict (Sample.info (V3 0 0 1))]> σ1))
    as (σ2 & _ & Hsc2).
  { right. by rewrite Hσ1. }
  fold self in Hsc2.
  eexists _, σ1, _, σ2. split; [exact Hsc|]. split; [exact Hsc2|].
  rewrite !iso_offset_eq. destruct aff as [rzs [t0 t1 t2] bottom].
  unfold vadd, vmap2. simpl. intros [= E]. lra.
Qed.

(** ** Methods depend on the contents only *)

Section Frame.

Variables (σ σ' : store) (self self' : loc) (h h' : PARRECHeader).
Variables (d : gmap string value) (a : list image_def).
Hypothesis Hself : σ !! self = Some (OHeader h).
Hypothesis Hinfo : σ !! general_info h = Some (ODict d).
Hypothesis Hdefs : σ !! image_defs h = Some (ONdarray a).
Hypothesis Hself' : σ' !! self' = Some (OHeader h').
Hypothesis Hinfo' : σ' !! general_info h' = Some (ODict d).
Hypothesis Hdefs' : σ' !! image_defs h' = Some (ONdarray a).

Lemma frame_general_info : self_general_info σ self = self_general_info σ' self'.
Proof.
  rewrite (self_general_info_eq σ self h d Hself Hinfo).
  by rewrite (self_general_info_eq σ' self' h' d Hself' Hinfo').
Qed.

Lemma frame_image_defs : self_image_defs σ self = self_image_defs σ' self'.
Proof.
  rewrite (self_image_defs_eq σ self h a Hself Hdefs).
  by rewrite (self_image_defs_eq σ' self' h' a Hself' Hdefs').
Qed.

Lemma frame_query (name : string) :
  _get_unique_image_prop σ self name = _get_unique_image_prop σ' self' name.
Proof. unfold _get_unique_image_prop. by rewrite frame_image_defs. Qed.

Lemma frame_getitem (key : string) :
  general_info_getitem σ self key = general_info_getitem σ' self' key.
Proof. unfold general_info_getitem. by rewrite frame_general_info. Qed.

Lemma frame_count (name : string) :
  count_unique σ self name = count_unique σ' self' name.
Proof. unfold count_unique. by rewrite frame_image_defs. Qed.

Lemma frame_shape : get_data_shape_in_file σ self = get_data_shape_in_file σ' self'.
Proof.
  unfold get_data_shape_in_file.
  by rewrite !frame_count, !frame_getitem, frame_query.
Qed.

Lemma frame_zooms : _get_zooms σ self = _get_zooms σ' self'.
Proof.
  unfold _get_zooms, get_ndim, get_voxel_size.
  by rewrite !frame_getitem, !frame_query.
Qed.

End Frame.

Lemma __init___contents (σ σ' : store) (self info defs self' info' defs' : loc)
  (ds ds' : string) (d : gmap string value) (a : list image_def) (σv : store) :
  σ !! self = None → σ !! info = Some (ODict d) → σ !! defs = Some (ONdarray a) →
  σ' !! self' = None → σ' !! info' = Some (ODict d) → σ' !! defs' = Some (ONdarray a) →
  __init__ σ self info defs ds = Ok σv →
  ∃ b, σv = <[self := OHeader (attributes info defs ds (Some b))]> σ ∧
       __init__ σ' self' info' defs' ds'
       = Ok (<[self' := OHeader (attributes info' defs' ds' (Some b))]> σ').
Proof.
  intros Hf Hi Hd Hf' Hi' Hd'.
  pose proof (partial_self σ self info defs ds) as P1.
  pose proof (partial_info σ self info defs ds d Hf Hi) as P2.
  pose proof (partial_defs σ self info defs ds a Hf Hd) as P3.
  pose proof (partial_self σ' self' info' defs' ds') as Q1.
  pose proof (partial_info σ' self' info' defs' ds' d Hf' Hi') as Q2.
  pose proof (partial_defs σ' self' info' defs' ds' a Hf' Hd') as Q3.
  unfold __init__.
  rewrite (frame_query _ _ _ _ _ _ a P1 P3 Q1 Q3).
  rewrite (frame_shape _ _ _ _ _ _ d a P1 P2 P3 Q1 Q2 Q3).
  rewrite (frame_zooms _ _ _ _ _ _ d a P1 P2 P3 Q1 Q2 Q3).
  destruct (_get_unique_image_prop _ self' "image pixel size") as [u|]; [|done].
  simpl. destruct (item u 0) as [bits|]; [|done].
  simpl. destruct (str bits) as [digits|]; [|done].
  simpl. destruct (typeDict _) as [dt|]; [|done].
  simpl. destruct (get_data_shape_in_file _ self') as [shape|]; [|done].
  simpl. destruct (_get_zooms _ self') as [zooms|]; [|done].
  simpl. intros [= <-]. eexists. by rewrite !insert_insert_eq.
Qed.

Lemma PARRECHeader_new_contents (σ σ' : store) (info defs info' defs' : loc)
  (ds ds' : string) (d : gmap string value) (a : list image_def)
  (q : loc) (σv : store) :
  σ !! info = Some (ODict d) → σ !! defs = Some (ONdarray a) →
  σ' !! info' = Some (ODict d) → σ' !! defs' = Some (ONdarray a) →
  PARRECHeader_new σ info defs ds = Ok (q, σv) →
  ∃ b, σv = <[q := OHeader (attributes info defs ds (Some b))]> σ ∧
       PARRECHeader_new σ' info' defs' ds'
       = Ok (alloc σ', <[alloc σ' := OHeader (attributes info' defs' ds' (Some b))]> σ').
Proof.
  intros Hi Hd Hi' Hd'. unfold PARRECHeader_new.
  destruct (__init__ σ (alloc σ) info defs ds) as [s|] eqn:E; [|done].
  simpl. intros [= <- <-].
  destruct (__init___contents σ σ' (alloc σ) info defs (alloc σ') info' defs'
              ds ds' d a s (alloc_fresh σ) Hi Hd (alloc_fresh σ') Hi' Hd' E)
    as (b & -> & ->).
  by exists b.
Qed.

(** ** Copies *)

Section Copy.

Variables (σ : store) (p : loc) (h : PARRECHeader).
Variables (d : gmap string value) (a : list image_def).
Hypothesis Hp : σ !! p = Some (OHeader h).
Hypothesis Hinfo : σ !! general_info h = Some (ODict d).
Hypothesis Hdefs : σ !! image_defs h = Some (ONdarray a).

Local Abbreviation info' := (alloc σ).
Local Abbreviation σa := (<[info' := ODict d]> σ).
Local Abbreviation defs' := (alloc σa).
Local Abbreviation σb := (<[defs' := ONdarray a]> σa).
Local Abbreviation p' := (alloc σb).

Lemma copy_locations :
  σ !! info' = None ∧ σ !! defs' = None ∧ σ !! p' = None ∧
  info' ≠ defs' ∧ info' ≠ p' ∧ defs' ≠ p'.
Proof.
  assert (Ha : σa !! defs' = None) by apply alloc_fresh.
  assert (Hb : σb !! p' = None) by apply alloc_fresh.
  assert (N1 : defs' ≠ info').
  { intros E. rewrite E, lookup_insert_eq in Ha. discriminate. }
  assert (N2 : p' ≠ defs').
  { intros E. rewrite E, lookup_insert_eq in Hb. discriminate. }
  assert (N3 : p' ≠ info').
  { intros E. rewrite lookup_insert_ne in Hb by done.
    rewrite E, lookup_insert_eq in Hb. discriminate. }
  rewrite lookup_insert_ne in Ha by done.
  rewrite !lookup_insert_ne in Hb by done.
  repeat split; try done. apply alloc_fresh.
Qed.

Lemma copy_preserves (l : loc) (o : obj) : σ !! l = Some o → σb !! l = Some o.
Proof.
  intros Hl. destruct copy_locations as (F1 & F2 & _).
  rewrite !lookup_insert_ne; [done | congruence | congruence].
Qed.

Lemma copy_eq (q : loc) (σv : store) :
  PARRECHeader_new σ (general_info h) (image_defs h) "dv" = Ok (q, σv) →
  ∃ b, copy σ p
       = Ok (p', <[p' := OHeader (attributes info' defs' "dv" (Some b))]> σb).
Proof.
  intros Hnew. destruct copy_locations as (F1 & F2 & F3 & N1 & N2 & N3).
  unfold copy. rewrite (the_header_self σ p h Hp). simpl.
  unfold the_dict at 1. rewrite Hinfo. simpl.
  unfold the_array at 1. rewrite (lookup_insert_ne σ); [|congruence].
  rewrite Hdefs. simpl.
  destruct (PARRECHeader_new_contents σ σb (general_info h) (image_defs h)
              info' defs' "dv" "dv" d a q σv Hinfo Hdefs) as (b & _ & ->); try done.
  - rewrite lookup_insert_ne by done. apply lookup_insert_eq.
  - apply lookup_insert_eq.
  - by exists b.
Qed.

End Copy.

Lemma from_header_of_header (σ : store) (p : loc) (h : PARRECHeader)
  (d : gmap string value) (a : list image_def) (q : loc) (σv : store) :
  σ !! p = Some (OHeader h) →
  σ !! general_info h = Some (ODict d) →
  σ !! image_defs h = Some (ONdarray a) →
  PARRECHeader_new σ (general_info h) (image_defs h) "dv" = Ok (q, σv) →
  ∃ p' h' σ',
    from_header σ (Some p) = Ok (p', σ') ∧
    σ' !! p' = Some (OHeader h') ∧
    σ' !! general_info h' = Some (ODict d) ∧
    σ' !! image_defs h' = Some (ONdarray a) ∧
    σ !! p' = None ∧ σ !! general_info h' = None ∧ σ !! image_defs h' = None ∧
    (∀ l o, σ !! l = Some o → σ' !! l = Some o) ∧
    (∀ l o o', σ !! l = Some o →
       <[l := o']> σ' !! p' = Some (OHeader h') ∧
       <[l := o']> σ' !! general_info h' = Some (ODict d) ∧
       <[l := o']> σ' !! image_defs h' = Some (ONdarray a)) ∧
    (∀ l l0 o o', l = p' ∨ l = general_info h' ∨ l = image_defs h' →
       σ !! l0 = Some o → <[l := o']> σ' !! l0 = Some o).
Proof.
  intros Hp Hinfo Hdefs Hnew.
  destruct (copy_eq σ p h d a Hp Hinfo Hdefs q σv Hnew) as (b & Hcopy).
  destruct (copy_locations σ d a) as (F1 & F2 & F3 & N1 & N2 & N3).
  set (info' := alloc σ) in *.
  set (σa := <[info' := ODict d]> σ) in *.
  set (defs' := alloc σa) in *.
  set (σb := <[defs' := ONdarray a]> σa) in *.
  set (p' := alloc σb) in *.
  set (h' := attributes info' defs' "dv" (Some b)) in *.
  assert (Hp' : <[p' := OHeader h']> σb !! p' = Some (OHeader h'))
    by apply lookup_insert_eq.
  assert (Hi' : <[p' := OHeader h']> σb !! info' = Some (ODict d)).
  { rewrite lookup_insert_ne by done. unfold σb.
    rewrite lookup_insert_ne by done. apply lookup_insert_eq. }
  assert (Hd' : <[p' := OHeader h']> σb !! defs' = Some (ONdarray a)).
  { rewrite lookup_insert_ne by done. apply lookup_insert_eq. }
  assert (Hold : ∀ l o, σ !! l = Some o → <[p' := OHeader h']> σb !! l = Some o).
  { intros l o Hl. rewrite lookup_insert_ne by congruence.
    by apply copy_preserves. }
  exists p', h', (<[p' := OHeader h']> σb).
  split; [unfold from_header; by rewrite Hp|].
  do 7 (split; [done|]). split.
  - intros l o o' Hl.
    assert (l ≠ p' ∧ l ≠ info' ∧ l ≠ defs') as (M1 & M2 & M3)
      by (repeat split; congruence).
    simpl. by rewrite !(lookup_insert_ne _ l).
  - intros l l0 o o' Hl Hl0.
    assert (l ≠ l0) by (destruct Hl as [->|[->| ->]]; simpl; congruence).
    rewrite lookup_insert_ne by done. by apply Hold.
Qed.






(** Every header that the constructor has just built can be copied. *)
Lemma constructed_header_copies (σ σ1 : store) (info defs p : loc) (ds : string)
  (d : gmap string value) (a : list image_def) :
  σ !! info = Some (ODict d) → σ !! defs = Some (ONdarray a) →
  PARRECHeader_new σ info defs ds = Ok (p, σ1) →
  ∃ p' σ', from_header σ1 (Some p) = Ok (p', σ') ∧ σ1 !! p' = None.
Proof.
  intros Hi Hd Hnew.
  assert (Hp : p = alloc σ).
  { unfold PARRECHeader_new in Hnew.
    destruct (__init__ σ (alloc σ) info defs ds); [|done]. by injection Hnew. }
  assert (Hi1 : σ1 !! info = Some (ODict d) ∧ σ1 !! defs = Some (ONdarray a) ∧
                ∃ b, σ1 !! p = Some (OHeader (attributes info defs ds (Some b)))).
  { destruct (PARRECHeader_new_contents σ σ info defs info defs ds ds d a p σ1
                Hi Hd Hi Hd Hnew) as (b & -> & _).
    rewrite !lookup_insert_ne by (rewrite Hp; eapply alloc_ne; eassumption).
    repeat split; try done. exists b. apply lookup_insert_eq. }
  destruct Hi1 as (Hi1 & Hd1 & b & Hp1).
  destruct (PARRECHeader_new_contents σ σ1 info defs info defs ds "dv" d a p σ1
              Hi Hd Hi1 Hd1 Hnew) as (b' & _ & Hagain).
  destruct (from_header_of_header σ1 p _ d a _ _ Hp1 Hi1 Hd1 Hagain)
    as (p' & h' & σ' & Hfrom & _ & _ & _ & Hnew' & _).
  eauto.
Qed.

(** ** The two rotations *)

(** The helper modelled from the spec is the one for which the assertion
    of [get_affine] holds. *)
Lemma rot_r2agui_euler2mat (angulation : vec3) :
  rot_r2agui (ang_rad angulation) = rot_nibabel euler2mat (ang_rad angulation).
Proof. reflexivity. Qed.

(** Whatever the helper, the affine relative to the scanner adds
    [(-rl, -ap, 0)] to the translation of the affine relative to the
    field of view. *)
Lemma get_affine_scanner_translation (e : R -> R -> R -> mat3) (σ σ1 : store)
  (self : loc) (h1 : PARRECHeader) (d : gmap string value) (aff : mat4)
  (ap fh rl : R) :
  get_affine e σ self "fov" = Ok (aff, σ1) →
  σ1 !! self = Some (OHeader h1) →
  σ1 !! general_info h1 = Some (ODict d) →
  d !! "off_center" = Some (VArray (V3 ap fh rl)) →
  get_affine e σ self "scanner"
  = Ok (M4 (a_rzs aff) (vadd (a_trans aff) (V3 (- rl) (- ap) 0)) (a_bottom aff), σ1).
Proof.
  intros Hfov Hself Hinfo Hoff.
  rewrite get_affine_scanner_fov, Hfov. simpl.
  rewrite (general_info_array σ1 self h1 d Hself Hinfo _ _ Hoff). simpl.
  by rewrite iso_offset_eq.
Qed.

(** * Further properties of the header *)

(** ** Construction *)

Lemma __init___result (σ σv : store) (self info defs : loc) (ds : string) :
  __init__ σ self info defs ds = Ok σv →
  ∃ b, σv = <[self := OHeader (attributes info defs ds (Some b))]> σ.
Proof.
  unfold __init__.
  destruct (_get_unique_image_prop _ self "image pixel size") as [u|]; [|done].
  simpl. destruct (item u 0) as [bits|]; [|done].
  simpl. destruct (str bits) as [digits|]; [|done].
  simpl. destruct (typeDict _) as [dt|]; [|done].
  simpl. destruct (get_data_shape_in_file _ self) as [shape|]; [|done].
  simpl. destruct (_get_zooms _ self) as [zooms|]; [|done].
  simpl. intros [= <-]. eexists. by rewrite insert_insert_eq.
Qed.

Lemma PARRECHeader_new_result (σ σ1 : store) (info defs p : loc) (ds : string) :
  PARRECHeader_new σ info defs ds = Ok (p, σ1) →
  p = alloc σ ∧ ∃ b, σ1 = <[p := OHeader (attributes info defs ds (Some b))]> σ.
Proof.
  unfold PARRECHeader_new.
  destruct (__init__ σ (alloc σ) info defs ds) as [s|] eqn:E; [|done].
  simpl. intros [= <- <-]. split; [done|]. by apply __init___result in E.
Qed.

(** The constructor keeps references to the objects it is given: the new
    instance is a new object, no other object changes, and a dictionary
    assigned later through the caller's reference is the one the header
    reads. *)
Theorem constructor_keeps_references (σ σ1 : store) (info defs p : loc)
  (ds : string) (o : obj) :
  PARRECHeader_new σ info defs ds = Ok (p, σ1) →
  σ !! info = Some o →
  σ !! p = None ∧
  (∀ l, l ≠ p → σ1 !! l = σ !! l) ∧
  (∃ h, σ1 !! p = Some (OHeader h) ∧ general_info h = info ∧ image_defs h = defs
        ∧ default_scaling h = ds ∧ _slice_orientation h = None) ∧
  (∀ d', self_general_info (<[info := ODict d']> σ1) p = Ok d').
Proof.
  intros Hnew Hinfo.
  destruct (PARRECHeader_new_result _ _ _ _ _ _ Hnew) as (-> & b & ->).
  assert (Hne : alloc σ ≠ info) by (by eapply alloc_ne).
  split; [apply alloc_fresh|]. split; [|split].
  - intros l Hl. by rewrite lookup_insert_ne.
  - eexists. split; [apply lookup_insert_eq|]. done.
  - intros d'. unfold self_general_info, the_header.
    rewrite lookup_insert_ne by done. rewrite lookup_insert_eq. simpl.
    unfold the_dict. by rewrite lookup_insert_eq.
Qed.

Lemma partial_query (σ : store) (self info defs : loc) (ds : string)
  (a : list image_def) (name : string) :
  σ !! self = None → σ !! defs = Some (ONdarray a) →
  _get_unique_image_prop (<[self := OHeader (attributes info defs ds None)]> σ) self name
  = (getitem a name ≫= unique_image_prop).
Proof.
  intros Hf Hd.
  apply (_get_unique_image_prop_eq _ self _ a (partial_self σ self info defs ds)
           (partial_defs σ self info defs ds a Hf Hd)).
Qed.

(** An empty table is refused. *)
Theorem construction_empty_table (σ : store) (info defs : loc) (ds : string) :
  σ !! defs = Some (ONdarray []) →
  PARRECHeader_new σ info defs ds = Raise PARRECError.
Proof.
  intros Hd. unfold PARRECHeader_new, __init__.
  by rewrite (partial_query σ _ info defs ds [] _ (alloc_fresh σ) Hd).
Qed.

Section ShapeChecks.

Variables (σ : store) (info defs : loc) (ds : string).
Variables (d : gmap string value) (a : list image_def) (bits : Z) (dt : dtype).
Variables (mdv mgo : Z).
Hypothesis Hinfo : σ !! info = Some (ODict d).
Hypothesis Hdefs : σ !! defs = Some (ONdarray a).
Hypothesis Hne : a ≠ [].
Hypothesis Hbits : Forall (fun r => image_pixel_size r = bits) a.
Hypothesis Hdt : typeDict ("int" +:+ NilZero.string_of_int (Z.to_int bits)) = Ok dt.
Hypothesis Hmdv : d !! "max_diffusion_values" = Some (VInt mdv).
Hypothesis Hmgo : d !! "max_gradient_orient" = Some (VInt mgo).
Hypothesis Hms : d !! "max_slices"
  = Some (VInt (Z.of_nat (length (np_unique ((fun r => I (slice_number r)) <$> a))))).

Local Abbreviation self := (alloc σ).
Local Abbreviation σ1 := (<[self := OHeader (attributes info defs ds None)]> σ).

(** Up to the query for the in-plane resolution, construction goes
    through. *)
Lemma __init___to_resolution :
  __init__ σ self info defs ds
  = (inplane_shape ← unique_image_prop
       (Arr2 ((fun r => [I (recon_resolution r).1; I (recon_resolution r).2]) <$> a));
     shape ← (if decide (1 < length (np_unique ((fun r => I (dynamic_scan_number r)) <$> a)))%nat
              then Ok (inplane_shape ++
                         [I (Z.of_nat (length (np_unique ((fun r => I (slice_number r)) <$> a))));
                          I (Z.of_nat (length (np_unique ((fun r => I (dynamic_scan_number r)) <$> a))))])
              else if decide (1 < (mdv - 1) * mgo)
              then Ok (inplane_shape ++
                         [I (Z.of_nat (length (np_unique ((fun r => I (slice_number r)) <$> a))));
                          I ((mdv - 1) * mgo)])
              else Ok (inplane_shape ++
                         [I (Z.of_nat (length (np_unique ((fun r => I (slice_number r)) <$> a))))]));
     zooms ← _get_zooms σ1 self;
     Ok (<[self := OHeader (attributes info defs ds
                              (Some {| _dtype := dt; _shape := shape; _zooms := zooms |}))]> σ1)).
Proof.
  pose proof (partial_self σ self info defs ds) as P1.
  pose proof (partial_info σ self info defs ds d (alloc_fresh σ) Hinfo) as P2.
  pose proof (partial_defs σ self info defs ds a (alloc_fresh σ) Hdefs) as P3.
  unfold __init__.
  rewrite (__init___pixel_size σ self info defs ds a (alloc_fresh σ) Hdefs bits dt
             Hne Hbits Hdt).
  unfold get_data_shape_in_file.
  rewrite (count_unique_dynamics σ1 self _ a P1 P3). simpl.
  rewrite (general_info_int σ1 self _ d P1 P2 _ _ Hmdv). simpl.
  rewrite (general_info_int σ1 self _ d P1 P2 _ _ Hmgo). simpl.
  rewrite (count_unique_slices σ1 self _ a P1 P3). simpl.
  rewrite (general_info_int σ1 self _ d P1 P2 _ _ Hms). simpl.
  case_decide; [|done].
  rewrite (_get_unique_image_prop_eq σ1 self _ a P1 P3).
  destruct (getitem_arrays a) as (-> & _ & _). simpl.
  destruct (unique_image_prop _) as [sh|]; [|reflexivity].
  simpl. repeat case_decide; reflexivity.
Qed.

(** A table of one record is refused with [IndexError], also when it is
    consistent with the declared maxima: the query for the in-plane
    resolution reads the records 0 and 1. *)
Lemma construction_single_record_raises (r : image_def) :
  a = [r] → PARRECHeader_new σ info defs ds = Raise IndexError.
Proof.
  intros Ha. unfold PARRECHeader_new. rewrite __init___to_resolution.
  rewrite Ha. reflexivity.
Qed.

(** An in-plane resolution that is not square is refused, even when it
    is the same in every record. *)
Lemma construction_not_square_raises (r0 r1 : image_def) (rest : list image_def)
  (nx ny : Z) :
  a = r0 :: r1 :: rest → recon_resolution r0 = (nx, ny) → nx ≠ ny →
  PARRECHeader_new σ info defs ds = Raise PARRECError.
Proof.
  intros Ha Hr Hxy. unfold PARRECHeader_new. rewrite __init___to_resolution.
  rewrite Ha. simpl. rewrite Hr. simpl.
  rewrite (unique_image_prop_rows_mixed _ _ _ (I nx) (I ny)); [done|left|right;left|congruence].
Qed.

End ShapeChecks.

(** ** Dimensions *)

(** The zooms are as many as [get_ndim] says, three or four. *)
Lemma _get_zooms_length (σ : store) (self : loc) (zooms : list R) :
  _get_zooms σ self = Ok zooms →
  ∃ n, get_ndim σ self = Ok n ∧ length zooms = n ∧ (n = 3 ∨ n = 4)%nat.
Proof.
  unfold _get_zooms. intros Hz.
  destruct (_get_unique_image_prop σ self "slice gap") as [u|]; [|done].
  simpl in Hz. destruct (item u 0) as [g|]; [|done].
  simpl in Hz. destruct (get_ndim σ self) as [n|] eqn:En; [|done].
  simpl in Hz. destruct (get_voxel_size σ self) as [v|]; [|done].
  cbn [mbind result_bind] in Hz.
  assert (Hn : (n = 3 ∨ n = 4)%nat).
  { unfold get_ndim in En.
    destruct (general_info_getitem σ self "max_dynamics" ≫= as_int) as [md|]; [|done].
    cbn [mbind result_bind] in En. destruct (decide (1 < md)); [injection En; lia|].
    destruct (general_info_getitem σ self "max_gradient_orient" ≫= as_int) as [mg|];
      [|done].
    cbn [mbind result_bind] in En. destruct (decide (1 < mg)); injection En; lia. }
  exists n. split; [done|]. split; [|done].
  destruct (decide (3 < n)%nat).
  - destruct (general_info_getitem σ self "max_dynamics" ≫= as_int) as [md|]; [|done].
    cbn [mbind result_bind] in Hz. destruct (decide (1 < md)).
    + destruct (general_info_getitem σ self "repetition_time" ≫= as_float); [|done].
      injection Hz as <-. simpl. lia.
    + injection Hz as <-. simpl. lia.
  - injection Hz as <-. simpl. lia.
Qed.

Lemma unique_image_prop_rows_length {A} `{NpScalar A} (rows : list (list A))
  (u : list A) :
  unique_image_prop (Arr2 rows) = Ok u → length u = 2%nat.
Proof.
  unfold unique_image_prop. simpl.
  destruct (row rows 0) as [r0|]; [|done]. simpl.
  destruct (row rows 1) as [r1|]; [|done]. simpl.
  case_decide; [|done]. simpl.
  destruct (item0 (np_unique r0)); [|done]. simpl.
  destruct (item0 (np_unique r1)); [|done]. simpl.
  by intros [= <-].
Qed.

(** The shape has the two in-plane sizes, then [max_slices], then at
    most one more size, which is greater than 1. *)
Lemma get_data_shape_in_file_form (σ : store) (self : loc) (shape : list scalar) :
  get_data_shape_in_file σ self = Ok shape →
  ∃ x y m tail,
    shape = [x; y; I m] ++ tail ∧
    general_info_getitem σ self "max_slices" ≫= as_int = Ok m ∧
    (tail = [] ∨ ∃ v, tail = [I v] ∧ 1 < v).
Proof.
  unfold get_data_shape_in_file.
  destruct (count_unique σ self "dynamic scan number") as [nd|]; [|done]. simpl.
  destruct (general_info_getitem σ self "max_diffusion_values" ≫= as_int) as [mdv|];
    [|done]. simpl.
  destruct (general_info_getitem σ self "max_gradient_orient" ≫= as_int) as [mgo|];
    [|done]. simpl.
  destruct (count_unique σ self "slice number") as [ns|]; [|done]. simpl.
  destruct (general_info_getitem σ self "max_slices" ≫= as_int) as [ms|]; [|done].
  simpl. case_decide as Hs; [|done].
  destruct (_get_unique_image_prop σ self "recon resolution") as [u|] eqn:Eu; [|done].
  simpl.
  assert (Hu : length u = 2%nat).
  { unfold _get_unique_image_prop in Eu.
    destruct (self_image_defs σ self) as [defs|]; [|done].
    cbn [mbind result_bind] in Eu.
    destruct (getitem_arrays defs) as (Hr & _ & _). rewrite Hr in Eu.
    cbn [mbind result_bind] in Eu.
    by apply unique_image_prop_rows_length in Eu. }
  destruct u as [|x [|y [|]]]; try done. rewrite Hs.
  repeat case_decide; intros [= <-]; exists x, y, ms; eexists;
    (split; [reflexivity|]); (split; [done|]).
  - right. exists (Z.of_nat nd). split; [done | lia].
  - right. eauto.
  - by left.
Qed.

(** ** Scaling *)

(** A method other than ['dv'] and ['fp'] is refused, after the three
    scale fields have been read. *)
Lemma get_data_scaling_other_method (σ : store) (self : loc) (h : PARRECHeader)
  (a : list image_def) (ss rs ri : R) (method : string) :
  σ !! self = Some (OHeader h) →
  σ !! image_defs h = Some (ONdarray a) →
  a ≠ [] →
  Forall (fun r => scale_slope r = ss) a →
  Forall (fun r => rescale_slope r = rs) a →
  Forall (fun r => rescale_intercept r = ri) a →
  method ≠ "dv" → method ≠ "fp" →
  get_data_scaling σ self method = Raise ValueError.
Proof.
  intros Hself Hdefs Hne Hss Hrs Hri Hdv Hfp. unfold get_data_scaling.
  destruct (getitem_columns a) as (_ & _ & _ & Ci & Cr & Cs & _).
  rewrite (scale_query σ self h a Hself Hdefs _ _ Cs),
    (scale_query σ self h a Hself Hdefs _ _ Cr),
    (scale_query σ self h a Hself Hdefs _ _ Ci).
  rewrite (column_const scale_slope F a ss Hne Hss).
  rewrite (column_const rescale_slope F a rs Hne Hrs).
  rewrite (column_const rescale_intercept F a ri Hne Hri).
  simpl. by repeat case_decide.
Qed.

(** [get_slope_inter] on a table with uniform scale fields: the two
    scalars of the default scaling method, ['dv'] or ['fp']; any other
    default, which the constructor has accepted, is refused here with
    [ValueError]. *)
Lemma get_slope_inter_uniform (σ : store) (self : loc) (h : PARRECHeader)
  (a : list image_def) (ss rs ri : R) :
  σ !! self = Some (OHeader h) →
  σ !! image_defs h = Some (ONdarray a) →
  a ≠ [] →
  Forall (fun r => scale_slope r = ss) a →
  Forall (fun r => rescale_slope r = rs) a →
  Forall (fun r => rescale_intercept r = ri) a →
  (default_scaling h = "dv" → get_slope_inter σ self = Ok (rs, ri)) ∧
  (default_scaling h = "fp" →
     get_slope_inter σ self = Ok ((1 / ss)%R, (ri / (rs * ss))%R)) ∧
  (default_scaling h ≠ "dv" → default_scaling h ≠ "fp" →
     get_slope_inter σ self = Raise ValueError).
Proof.
  intros Hself Hdefs Hne Hss Hrs Hri. unfold get_slope_inter.
  rewrite (the_header_self σ self h Hself). simpl. repeat split.
  - intros ->.
    by rewrite (get_data_scaling_uniform_dv σ self h a Hself Hdefs ss rs ri).
  - intros ->.
    by rewrite (get_data_scaling_uniform_fp σ self h a Hself Hdefs ss rs ri).
  - intros Hdv Hfp.
    by rewrite (get_data_scaling_other_method σ self h a ss rs ri _ Hself Hdefs).
Qed.

(** The constructor does not look at [default_scaling]: a header that
    can be built with one default can be built with any other, with the
    same data type, shape and zooms. *)
Lemma default_scaling_not_checked (σ σ1 : store) (info defs p : loc)
  (ds ds' : string) (d : gmap string value) (a : list image_def) :
  σ !! info = Some (ODict d) → σ !! defs = Some (ONdarray a) →
  PARRECHeader_new σ info defs ds = Ok (p, σ1) →
  ∃ b, σ1 = <[p := OHeader (attributes info defs ds (Some b))]> σ ∧
       PARRECHeader_new σ info defs ds'
       = Ok (p, <[p := OHeader (attributes info defs ds' (Some b))]> σ).
Proof.
  intros Hi Hd Hnew.
  destruct (PARRECHeader_new_result _ _ _ _ _ _ Hnew) as (-> & _).
  destruct (PARRECHeader_new_contents σ σ info defs info defs ds ds' d a _ σ1
              Hi Hd Hi Hd Hnew) as (b & -> & ->).
  by exists b.
Qed.

(** ** Copies *)

(** A copy has the default scaling ['dv'] and an empty orientation
    cache, whatever the header it was made from. *)
Lemma from_header_resets (σ σ' : store) (p p' : loc) :
  from_header σ (Some p) = Ok (p', σ') →
  ∃ h', σ' !! p' = Some (OHeader h') ∧
        default_scaling h' = "dv" ∧ _slice_orientation h' = None.
Proof.
  unfold from_header. destruct (σ !! p) as [[| |h|]|]; try done.
  unfold copy. destruct (the_header σ p) as [h0|]; [|done]. simpl.
  destruct (the_dict σ (general_info h0)) as [d|]; [|done]. simpl.
  destruct (the_array _ (image_defs h0)) as [a|]; [|done]. simpl.
  intros Hnew. destruct (PARRECHeader_new_result _ _ _ _ _ _ Hnew) as (_ & b & ->).
  eexists. split; [apply lookup_insert_eq|]. done.
Qed.

(** ** The slice orientation *)

(** On a header without cached label and a table with the uniform code
    [c], the query is the lookup of [c] among the three codes. *)
Lemma get_slice_orientation_code (σ : store) (self : loc) (h : PARRECHeader)
  (a : list image_def) (c : Z) :
  σ !! self = Some (OHeader h) →
  σ !! image_defs h = Some (ONdarray a) →
  _slice_orientation h = None →
  a ≠ [] → Forall (fun r => slice_orientation r = c) a →
  (c = 1 → ∃ σ1, get_slice_orientation σ self = Ok ("transversal", σ1)) ∧
  (c = 2 → ∃ σ1, get_slice_orientation σ self = Ok ("sagital", σ1)) ∧
  (c = 3 → ∃ σ1, get_slice_orientation σ self = Ok ("coronal", σ1)) ∧
  (c ≠ 1 → c ≠ 2 → c ≠ 3 → get_slice_orientation σ self = Raise KeyError).
Proof.
  intros Hself Hdefs Hc Hne Hall.
  repeat split.
  - intros ->. eexists.
    by apply (get_slice_orientation_first σ self h a 1).
  - intros ->. eexists.
    by apply (get_slice_orientation_first σ self h a 2).
  - intros ->. eexists.
    by apply (get_slice_orientation_first σ self h a 3).
  - intros N1 N2 N3. unfold get_slice_orientation.
    rewrite (the_header_self σ self h Hself). simpl. rewrite Hc.
    destruct (getitem_columns a) as (_ & _ & _ & _ & _ & _ & _ & _ & Co).
    rewrite (query_scalar_int σ self h a Hself Hdefs _ _ c Co Hne Hall).
    cbn [mbind result_bind item lookup list_lookup].
    assert (Hl : slice_orientation_label (I c) = Raise KeyError).
    { unfold slice_orientation_label.
      destruct c as [|[[]|[]|]|]; try reflexivity; lia. }
    by rewrite Hl.
Qed.

(** ** The affine *)

(** An origin other than ['scanner'] gives the affine relative to the
    field of view: an unknown origin is not an error. *)
Lemma get_affine_other_origin (e : R -> R -> R -> mat3) (σ : store)
  (self : loc) (origin : string) :
  origin ≠ "scanner" → get_affine e σ self origin = get_affine e σ self "fov".
Proof.
  intros Hne. unfold get_affine.
  destruct (general_info_getitem σ self "angulation" ≫= as_array) as [ang|]; [|done].
  simpl. case_decide; [|done].
  destruct (general_info_getitem σ self "fov" ≫= as_array) as [fov|]; [|done].
  simpl. destruct (get_voxel_size σ self) as [vs|]; [|done]. simpl.
  destruct (get_slice_orientation σ self) as [[so σ1]|]; [|done]. simpl.
  destruct (recfg_data_axis so fov) as [[rc fv]|]; [|done]. simpl.
  destruct (get_voxel_size σ1 self) as [vs1|]; [|done]. simpl.
  destruct (get_zooms σ1 self) as [zs|]; [|done]. simpl.
  destruct (diag (take 3 zs)) as [zd|]; [|done]. simpl.
  by repeat case_decide.
Qed.

(** ** Matrices *)

Ltac mat_destruct :=
  repeat match goal with
         | m : mat3 |- _ => destruct m as [[? ? ?] [? ? ?] [? ? ?]]
         | v : vec3 |- _ => destruct v as [? ? ?]
         end.

Ltac mat_ring :=
  mat_destruct;
  unfold mmul, mtranspose, mvec, col, vdot, eye3, det3; simpl;
  first [ring | f_equal; f_equal; ring].

Section Matrices.
Local Open Scope R_scope.


Lemma mmul_eye3_r (a : mat3) : mmul a eye3 = a.
Proof. mat_ring. Qed.











End Matrices.

Section AffineBlock.
Local Open Scope R_scope.



Lemma rot_r2agui_zero : rot_r2agui (ang_rad (V3 0 0 0)) = eye3.
Proof.
  unfold rot_r2agui, ang_rad, vmap, rot_rl, rot_ap, rot_fh. simpl.
  replace (0 * PI / 180 * -1) with 0 by lra.
  rewrite cos_0, sin_0.
  unfold mmul, col, vdot, eye3. simpl. f_equal; f_equal; ring.
Qed.

End AffineBlock.

(** * Further properties: construction, queries and copies *)

(** ** The data type of the pixels *)

Lemma to_int_not_nil (z : Z) :
  Z.to_int z ≠ Decimal.Pos Decimal.Nil ∧ Z.to_int z ≠ Decimal.Neg Decimal.Nil.
Proof.
  split; intros E; pose proof (DecimalZ.of_to z) as Hz; rewrite E in Hz;
    simpl in Hz; subst z; vm_compute in E; discriminate E.
Qed.

Lemma digits_inj (z z' : Z) :
  NilZero.string_of_int (Z.to_int z) = NilZero.string_of_int (Z.to_int z') → z = z'.
Proof.
  intros E. apply (f_equal NilZero.int_of_string) in E.
  destruct (to_int_not_nil z) as (P & N). destruct (to_int_not_nil z') as (P' & N').
  rewrite !NilZero.isi in E by done.
  injection E as E. by apply DecimalZ.to_int_inj.
Qed.

(** The keys of [np.typeDict] that the constructor can form are those of
    the depths 8, 16, 32, 64 and 0. *)
Lemma typeDict_depth (bits : Z) :
  bits ≠ 8 → bits ≠ 16 → bits ≠ 32 → bits ≠ 64 → bits ≠ 0 →
  typeDict ("int" +:+ NilZero.string_of_int (Z.to_int bits)) = Raise KeyError.
Proof.
  intros N8 N16 N32 N64 N0. unfold typeDict.
  repeat case_decide; try reflexivity; exfalso;
    match goal with
    | E : "int" +:+ _ = _ |- _ => injection E as E
    end.
  - by apply N8, digits_inj.
  - by apply N16, digits_inj.
  - by apply N32, digits_inj.
  - by apply N64, digits_inj.
  - by apply N0, digits_inj.
Qed.

(** A uniform pixel size that is none of 8, 16, 32, 64 and 0 stops the
    constructor in the lookup of the data type, with [KeyError]. *)
Theorem construction_unknown_depth (σ : store) (info defs : loc) (ds : string)
  (a : list image_def) (bits : Z) :
  σ !! defs = Some (ONdarray a) →
  a ≠ [] →
  Forall (fun r => image_pixel_size r = bits) a →
  bits ≠ 8 → bits ≠ 16 → bits ≠ 32 → bits ≠ 64 → bits ≠ 0 →
  PARRECHeader_new σ info defs ds = Raise KeyError.
Proof.
  intros Hdefs Hne Hbits N8 N16 N32 N64 N0.
  unfold PARRECHeader_new, __init__.
  destruct (getitem_columns a) as (_ & _ & Cb & _).
  rewrite (query_scalar_int _ (alloc σ) _ a
             (partial_self σ _ info defs ds)
             (partial_defs σ _ info defs ds a (alloc_fresh σ) Hdefs)
             _ _ bits Cb Hne Hbits).
  cbn [mbind result_bind item lookup list_lookup str].
  by rewrite typeDict_depth.
Qed.

Lemma construction_unknown_depth_witness :
  PARRECHeader_new (Sample.objects (Sample.info (V3 0 0 0)) (Sample.table 12))
    1%positive 2%positive "dv"
  = Raise KeyError.
Proof.
  apply (construction_unknown_depth _ _ _ _ (Sample.table 12) 12).
  - apply objects_defs.
  - discriminate.
  - repeat constructor.
  - lia.
  - lia.
  - lia.
  - lia.
  - lia.
Defined.

(** ** Construction: witnesses *)

Lemma constructor_keeps_references_witness :
  let σ := Sample.objects (Sample.info (V3 0 0 0)) (Sample.table 16) in
  let p := alloc σ in
  let σ1 := <[p := OHeader (Sample.header int16)]> σ in
  σ !! p = None ∧
  (∀ l, l ≠ p → σ1 !! l = σ !! l) ∧
  (∃ h, σ1 !! p = Some (OHeader h) ∧ general_info h = 1%positive
        ∧ image_defs h = 2%positive
        ∧ default_scaling h = "dv" ∧ _slice_orientation h = None) ∧
  (∀ d', self_general_info (<[1%positive := ODict d']> σ1) p = Ok d').
Proof.
  intros σ p σ1.
  apply (constructor_keeps_references σ σ1 1%positive 2%positive p "dv"
           (ODict (Sample.info (V3 0 0 0)))).
  - by apply sample_table_new.
  - apply objects_info.
Defined.

Lemma construction_empty_table_witness :
  PARRECHeader_new (Sample.objects (Sample.info (V3 0 0 0)) [])
    1%positive 2%positive "dv"
  = Raise PARRECError.
Proof. apply construction_empty_table. apply objects_defs. Defined.

(** The number of distinct slice numbers in the table must be
    [max_slices]: otherwise the constructor raises [PARRECError]. *)
Theorem construction_slice_count_checked (σ : store) (info defs : loc) (ds : string)
  (d : gmap string value) (a : list image_def) (bits : Z) (dt : dtype)
  (mdv mgo ms : Z) :
  σ !! info = Some (ODict d) →
  σ !! defs = Some (ONdarray a) →
  a ≠ [] →
  Forall (fun r => image_pixel_size r = bits) a →
  typeDict ("int" +:+ NilZero.string_of_int (Z.to_int bits)) = Ok dt →
  d !! "max_diffusion_values" = Some (VInt mdv) →
  d !! "max_gradient_orient" = Some (VInt mgo) →
  d !! "max_slices" = Some (VInt ms) →
  Z.of_nat (length (np_unique ((fun r => I (slice_number r)) <$> a))) ≠ ms →
  PARRECHeader_new σ info defs ds = Raise PARRECError.
Proof. apply PARRECHeader_new_mismatch. Qed.

Lemma construction_slice_count_checked_witness :
  PARRECHeader_new
    (Sample.objects (<["max_slices" := VInt 3]> (Sample.info (V3 0 0 0)))
                    (Sample.table 16))
    1%positive 2%positive "dv"
  = Raise PARRECError.
Proof.
  apply (construction_slice_count_checked _ _ _ _
           (<["max_slices" := VInt 3]> (Sample.info (V3 0 0 0)))
           (Sample.table 16) 16 int16 1 1 3).
  - apply objects_info.
  - apply objects_defs.
  - discriminate.
  - repeat constructor.
  - reflexivity.
  - reflexivity.
  - reflexivity.
  - reflexivity.
  - destruct (sample_counts 16) as (-> & _). lia.
Defined.

Lemma construction_single_record_raises_witness :
  PARRECHeader_new
    (Sample.objects (<["max_slices" := VInt 1]> (Sample.info (V3 0 0 0)))
                    Sample.single_truncated)
    1%positive 2%positive "dv"
  = Raise IndexError.
Proof.
  apply (construction_single_record_raises _ _ _ _
           (<["max_slices" := VInt 1]> (Sample.info (V3 0 0 0)))
           Sample.single_truncated 16 int16 1 1
           (objects_info _ _) (objects_defs _ _)) with (r := Sample.record 1 1 16 2).
  - discriminate.
  - repeat constructor.
  - reflexivity.
  - reflexivity.
  - reflexivity.
  - destruct (sample_counts 16) as (_ & _ & _ & _ & ->). reflexivity.
  - reflexivity.
Defined.

Lemma rectangular_counts :
  length (np_unique ((fun r => I (slice_number r)) <$> Sample.rectangular)) = 2%nat.
Proof. vm_compute. reflexivity. Qed.

Lemma construction_not_square_raises_witness :
  PARRECHeader_new (Sample.objects (Sample.info (V3 0 0 0)) Sample.rectangular)
    1%positive 2%positive "dv"
  = Raise PARRECError.
Proof.
  eapply (construction_not_square_raises _ _ _ _
           (Sample.info (V3 0 0 0)) Sample.rectangular 16 int16 1 1
           (objects_info _ _) (objects_defs _ _)) with (nx := 64) (ny := 32).
  - discriminate.
  - repeat constructor.
  - reflexivity.
  - reflexivity.
  - reflexivity.
  - rewrite rectangular_counts. reflexivity.
  - reflexivity.
  - reflexivity.
  - lia.
Defined.

(** ** The sample header: its queries *)

Section SampleQueries.

Local Abbreviation d := (Sample.info (V3 0 0 0)).
Local Abbreviation a := (Sample.table 16).
Local Abbreviation σ := (Sample.with_header d a).
Local Abbreviation self := (alloc (Sample.objects d a)).

Lemma sample_zooms : _get_zooms σ self = Ok [4; 4; 6 + 2; 2000 / 1000]%R.
Proof.
  destruct (sample_info_lookups (V3 0 0 0)) as (_ & Hmd & _ & _ & Htr & _).
  destruct sample_table_regular as (Hthick & Hgap & _).
  apply (_get_zooms_regular σ self (Sample.header int16) d a
           (with_header_self _ _) (with_header_info _ _) (with_header_defs _ _)
           _ _ _ eq_refl 4%R 4%R 6%R 2%R eq_refl eq_refl Hthick Hgap
           2 2000%R Hmd Htr ltac:(lia)).
Qed.

Lemma sample_shape :
  get_data_shape_in_file σ self = Ok [I 64; I 64; I 2; I 2].
Proof.
  destruct (sample_info_lookups (V3 0 0 0)) as (Hms & _ & Hmgo & Hmdv & _).
  destruct (sample_counts 16) as (Hs & Hd & _).
  apply (get_data_shape_in_file_regular σ self (Sample.header int16) d a
           (with_header_self _ _) (with_header_info _ _) (with_header_defs _ _)
           _ _ _ eq_refl 64 64 eq_refl eq_refl 1 1 Hmgo Hmdv 2%nat 2%nat
           Hs Hd Hms ltac:(lia)).
Qed.

End SampleQueries.

Lemma _get_zooms_length_witness :
  ∃ n,
    get_ndim (Sample.with_header (Sample.info (V3 0 0 0)) (Sample.table 16))
      (alloc (Sample.objects (Sample.info (V3 0 0 0)) (Sample.table 16))) = Ok n ∧
    length [4; 4; 6 + 2; 2000 / 1000]%R = n ∧ (n = 3 ∨ n = 4)%nat.
Proof. apply _get_zooms_length. apply sample_zooms. Defined.

Lemma get_data_shape_in_file_form_witness :
  ∃ x y m tail,
    [I 64; I 64; I 2; I 2] = [x; y; I m] ++ tail ∧
    general_info_getitem
      (Sample.with_header (Sample.info (V3 0 0 0)) (Sample.table 16))
      (alloc (Sample.objects (Sample.info (V3 0 0 0)) (Sample.table 16)))
      "max_slices" ≫= as_int = Ok m ∧
    (tail = [] ∨ ∃ v, tail = [I v] ∧ 1 < v).
Proof. apply get_data_shape_in_file_form. apply sample_shape. Defined.

Lemma get_slope_inter_uniform_witness :
  let σ := Sample.with_header (Sample.info (V3 0 0 0)) (Sample.table 16) in
  let self := alloc (Sample.objects (Sample.info (V3 0 0 0)) (Sample.table 16)) in
  let h := Sample.header int16 in
  (default_scaling h = "dv" → get_slope_inter σ self = Ok (2, 0)%R) ∧
  (default_scaling h = "fp" →
     get_slope_inter σ self = Ok ((1 / 5)%R, (0 / (2 * 5))%R)) ∧
  (default_scaling h ≠ "dv" → default_scaling h ≠ "fp" →
     get_slope_inter σ self = Raise ValueError).
Proof.
  intros σ self h.
  apply (get_slope_inter_uniform σ self h (Sample.table 16)).
  - apply with_header_self.
  - apply with_header_defs.
  - discriminate.
  - apply table_uniform; reflexivity.
  - apply table_uniform; reflexivity.
  - apply table_uniform; reflexivity.
Defined.

Lemma default_scaling_not_checked_witness :
  let σ := Sample.objects (Sample.info (V3 0 0 0)) (Sample.table 16) in
  ∃ b, <[alloc σ := OHeader (Sample.header int16)]> σ
       = <[alloc σ := OHeader (attributes 1%positive 2%positive "dv" (Some b))]> σ ∧
       PARRECHeader_new σ 1%positive 2%positive "no such method"
       = Ok (alloc σ,
             <[alloc σ := OHeader (attributes 1%positive 2%positive
                                     "no such method" (Some b))]> σ).
Proof.
  intros σ.
  apply (default_scaling_not_checked σ _ 1%positive 2%positive (alloc σ) "dv"
           "no such method" (Sample.info (V3 0 0 0)) (Sample.table 16)).
  - apply objects_info.
  - apply objects_defs.
  - by apply sample_table_new.
Defined.

Lemma get_slice_orientation_code_witness :
  let σ := Sample.with_header (Sample.info (V3 0 0 0)) (Sample.table 16) in
  let self := alloc (Sample.objects (Sample.info (V3 0 0 0)) (Sample.table 16)) in
  (1 = 1 → ∃ σ1, get_slice_orientation σ self = Ok ("transversal", σ1)) ∧
  (1 = 2 → ∃ σ1, get_slice_orientation σ self = Ok ("sagital", σ1)) ∧
  (1 = 3 → ∃ σ1, get_slice_orientation σ self = Ok ("coronal", σ1)) ∧
  (1 ≠ 1 → 1 ≠ 2 → 1 ≠ 3 → get_slice_orientation σ self = Raise KeyError).
Proof.
  intros σ self.
  apply (get_slice_orientation_code σ self (Sample.header int16) (Sample.table 16) 1).
  - apply with_header_self.
  - apply with_header_defs.
  - reflexivity.
  - discriminate.
  - apply sample_table_regular.
Defined.

Lemma get_affine_other_origin_witness :
  let σ := Sample.with_header (Sample.info (V3 0 0 0)) (Sample.table 16) in
  let self := alloc (Sample.objects (Sample.info (V3 0 0 0)) (Sample.table 16)) in
  get_affine euler2mat σ self "isocenter" = get_affine euler2mat σ self "fov".
Proof. intros σ self. apply get_affine_other_origin. discriminate. Defined.

(** ** Copies: witnesses *)

Lemma from_header_resets_witness :
  let σ0 := Sample.objects (Sample.info (V3 0 0 0)) (Sample.table 16) in
  let p := alloc σ0 in
  let h := set_slice_orientation
             (attributes 1%positive 2%positive "fp" (base (Sample.header int16)))
             "transversal" in
  let σ := <[p := OHeader h]> σ0 in
  ∃ p' σ' h',
    from_header σ (Some p) = Ok (p', σ') ∧
    σ' !! p' = Some (OHeader h') ∧
    default_scaling h' = "dv" ∧ _slice_orientation h' = None.
Proof.
  intros σ0 p h σ.
  destruct (sample_self_not_objects (Sample.info (V3 0 0 0)) (Sample.table 16))
    as (N1 & N2). fold σ0 in N1, N2. fold p in N1, N2.
  assert (Hp : σ !! p = Some (OHeader h)) by apply lookup_insert_eq.
  assert (Hi : σ !! general_info h = Some (ODict (Sample.info (V3 0 0 0)))).
  { unfold σ. simpl. rewrite lookup_insert_ne by done. apply objects_info. }
  assert (Hd : σ !! image_defs h = Some (ONdarray (Sample.table 16))).
  { unfold σ. simpl. rewrite lookup_insert_ne by done. apply objects_defs. }
  destruct (PARRECHeader_new_contents σ0 σ 1%positive 2%positive
              (general_info h) (image_defs h) "dv" "dv" _ _ _ _
              (objects_info _ _) (objects_defs _ _) Hi Hd
              (sample_table_new (V3 0 0 0) 16 int16 eq_refl)) as (b & _ & Hnew).
  destruct (from_header_of_header σ p h _ _ _ _ Hp Hi Hd Hnew)
    as (p' & h0 & σ' & Hfrom & _).
  destruct (from_header_resets σ σ' p p' Hfrom) as (h' & Hh' & Hds & Hso).
  exists p', σ', h'. done.
Defined.

Lemma constructed_header_copies_witness :
  let σ := Sample.objects (Sample.info (V3 0 0 0)) (Sample.table 16) in
  let σ1 := <[alloc σ := OHeader (Sample.header int16)]> σ in
  ∃ p' σ', from_header σ1 (Some (alloc σ)) = Ok (p', σ') ∧ σ1 !! p' = None.
Proof.
  intros σ σ1.
  apply (constructed_header_copies σ σ1 1%positive 2%positive (alloc σ) "dv"
           (Sample.info (V3 0 0 0)) (Sample.table 16)).
  - apply objects_info.
  - apply objects_defs.
  - by apply sample_table_new.
Defined.

(** ** The affine: witnesses *)

Section SampleAffine.
Local Open Scope R_scope.

Local Abbreviation d := (Sample.info (V3 0 0 0)).
Local Abbreviation a := (Sample.table 16).
Local Abbreviation σ := (Sample.with_header d a).
Local Abbreviation self := (alloc (Sample.objects d a)).
Local Abbreviation h1 :=
  (set_slice_orientation (Sample.header int16) "transversal").
Local Abbreviation σ1 := (<[self := OHeader h1]> σ).

Lemma sample_cached_self : σ1 !! self = Some (OHeader h1).
Proof. apply lookup_insert_eq. Qed.

Lemma sample_cached_info : σ1 !! general_info h1 = Some (ODict d).
Proof.
  destruct (sample_self_not_objects d a) as (N1 & N2).
  simpl. rewrite lookup_insert_ne by done. apply with_header_info.
Qed.

Lemma sample_cached_defs : σ1 !! image_defs h1 = Some (ONdarray a).
Proof.
  destruct (sample_self_not_objects d a) as (N1 & N2).
  simpl. rewrite lookup_insert_ne by done. apply with_header_defs.
Qed.

Lemma sample_cached_zooms : get_zooms σ1 self = Ok [4; 4; 6 + 2; 2000 / 1000].
Proof. unfold get_zooms. by rewrite (the_header_self σ1 self h1 sample_cached_self). Qed.

Lemma sample_voxel_size : get_voxel_size σ self = Ok (V3 4 4 6).
Proof.
  destruct sample_table_regular as (Hthick & _).
  apply (get_voxel_size_regular σ self (Sample.header int16) a
           (with_header_self _ _) (with_header_defs _ _)
           _ _ _ eq_refl 4 4 6 eq_refl eq_refl Hthick).
Qed.

Lemma sample_cached_voxel_size : get_voxel_size σ1 self = Ok (V3 4 4 6).
Proof.
  destruct sample_table_regular as (Hthick & _).
  apply (get_voxel_size_regular σ1 self h1 a sample_cached_self sample_cached_defs
           _ _ _ eq_refl 4 4 6 eq_refl eq_refl Hthick).
Qed.

Lemma euler2mat_zero : euler2mat 0 0 0 = eye3.
Proof.
  unfold euler2mat, rot_rl, rot_ap, rot_fh. rewrite cos_0, sin_0.
  unfold mmul, col, vdot, eye3. simpl. f_equal; f_equal; ring.
Qed.

End SampleAffine.


Lemma get_affine_scanner_translation_witness :
  let σ := Sample.with_header (Sample.info (V3 1 2 3)) (Sample.table 16) in
  let self := alloc (Sample.objects (Sample.info (V3 1 2 3)) (Sample.table 16)) in
  ∃ aff σ1,
    get_affine euler2mat σ self "fov" = Ok (aff, σ1) ∧
    get_affine euler2mat σ self "scanner"
    = Ok (M4 (a_rzs aff) (vadd (a_trans aff) (V3 (- 3) (- 1) 0)%R) (a_bottom aff), σ1).
Proof.
  intros σ self.
  destruct (sample_affine (V3 1 2 3)) as (aff & Haff).
  destruct (Haff (V3 1 2 3) σ (or_introl (conj eq_refl eq_refl))) as (σ1 & Hfov & _).
  fold self in Hfov.
  assert (Hσ1 : σ1 = <[self := OHeader (set_slice_orientation (Sample.header int16)
                                          "transversal")]> σ).
  { apply (get_affine_store euler2mat σ _ σ1 self "fov" "transversal" aff).
    - apply sample_first_query.
    - exact Hfov. }
  destruct (sample_self_not_objects (Sample.info (V3 1 2 3)) (Sample.table 16))
    as (N1 & N2).
  exists aff, σ1. split; [exact Hfov|].
  apply (get_affine_scanner_translation euler2mat σ σ1 self
           (set_slice_orientation (Sample.header int16) "transversal")
           (Sample.info (V3 1 2 3)) aff 1 2 3 Hfov).
  - rewrite Hσ1. apply lookup_insert_eq.
  - rewrite Hσ1. simpl. rewrite lookup_insert_ne by done. apply with_header_info.
  - reflexivity.
Defined.

Section ZeroAngulation.
Local Open Scope R_scope.

Lemma ang_rad_zero : ang_rad (V3 0 0 0) = V3 0 0 0.
Proof. unfold ang_rad, vmap. simpl. f_equal; lra. Qed.

(** Without angulation, and with a helper that gives the identity for
    the angles 0, the affine relative to the field of view is the axis
    remapping of the slice orientation applied to the zooms and to half
    the difference of voxel size and field of view; a label that is none
    of the three orientations is refused. *)
Theorem get_affine_zero_angulation (e : R -> R -> R -> mat3) (σ σ1 : store)
  (self : loc) (h : PARRECHeader) (d : gmap string value)
  (label : string) (vs : vec3) (ap fh rl vx vy vz z0 z1 z2 : R) (zs : list R) :
  σ !! self = Some (OHeader h) →
  σ !! general_info h = Some (ODict d) →
  d !! "angulation" = Some (VArray (V3 0 0 0)) →
  d !! "fov" = Some (VArray (V3 ap fh rl)) →
  e 0 0 0 = eye3 →
  get_voxel_size σ self = Ok vs →
  get_slice_orientation σ self = Ok (label, σ1) →
  get_voxel_size σ1 self = Ok (V3 vx vy vz) →
  get_zooms σ1 self = Ok (z0 :: z1 :: z2 :: zs) →
  (label = "transversal" →
     get_affine e σ self "fov"
     = Ok (M4 (M3 (V3 (- z0) 0 0) (V3 0 (- z1) 0) (V3 0 0 z2))
              (V3 (rl / 2 - vx / 2) (ap / 2 - vy / 2) (vz / 2 - fh / 2))
              (V3 0 0 0, 1), σ1)) ∧
  (label = "sagital" →
     get_affine e σ self "fov"
     = Ok (M4 (M3 (V3 0 0 z2) (V3 (- z0) 0 0) (V3 0 (- z1) 0))
              (V3 (vz / 2 - rl / 2) (ap / 2 - vx / 2) (fh / 2 - vy / 2))
              (V3 0 0 0, 1), σ1)) ∧
  (label = "coronal" →
     get_affine e σ self "fov"
     = Ok (M4 (M3 (V3 (- z0) 0 0) (V3 0 0 (- z2)) (V3 0 (- z1) 0))
              (V3 (rl / 2 - vx / 2) (ap / 2 - vz / 2) (fh / 2 - vy / 2))
              (V3 0 0 0, 1), σ1)) ∧
  (label ≠ "transversal" → label ≠ "sagital" → label ≠ "coronal" →
     get_affine e σ self "fov" = Raise PARRECError).
Proof.
  intros Hself Hinfo Hang Hfov He Hvs Hso Hvs1 Hz.
  assert (Hstart : get_affine e σ self "fov"
    = '(recfg, fov) ← recfg_data_axis label (V3 ap fh rl);
      let rot := mmul eye3 recfg in
      let off := mvec rot (vsub (vmap (fun x => x / 2) (V3 vx vy vz))
                                (vmap (fun x => x / 2) fov)) in
      Ok (M4 (mmul rot (M3 (V3 z0 0 0) (V3 0 z1 0) (V3 0 0 z2))) off
             (a_bottom eye4), σ1)).
  { unfold get_affine.
    rewrite (general_info_array σ self h d Hself Hinfo _ _ Hang).
    cbn [mbind result_bind].
    assert (Hrot : rot_nibabel e (ang_rad (V3 0 0 0)) = eye3).
    { unfold rot_nibabel. rewrite ang_rad_zero. exact He. }
    rewrite Hrot, rot_r2agui_zero.
    destruct (decide (eye3 = eye3)) as [_|N]; [|done].
    rewrite (general_info_array σ self h d Hself Hinfo _ _ Hfov).
    cbn [mbind result_bind]. rewrite Hvs. cbn [mbind result_bind].
    rewrite Hso. cbn [mbind result_bind].
    destruct (recfg_data_axis label (V3 ap fh rl)) as [[rc fv]|]; [|reflexivity].
    cbn [mbind result_bind]. rewrite Hvs1. cbn [mbind result_bind].
    rewrite Hz. reflexivity. }
  rewrite Hstart. unfold recfg_data_axis.
  repeat split.
  - intros ->. simpl.
    unfold mmul, mvec, vsub, vmap, vmap2, col, vdot, eye3; simpl.
    repeat first [reflexivity | lra | progress f_equal].
  - intros ->. simpl.
    unfold mmul, mvec, vsub, vmap, vmap2, col, vdot, eye3; simpl.
    repeat first [reflexivity | lra | progress f_equal].
  - intros ->. simpl.
    unfold mmul, mvec, vsub, vmap, vmap2, col, vdot, eye3; simpl.
    repeat first [reflexivity | lra | progress f_equal].
  - intros N1 N2 N3. by repeat case_decide.
Qed.

Lemma get_affine_zero_angulation_witness :
  let σ := Sample.with_header (Sample.info (V3 0 0 0)) (Sample.table 16) in
  let self := alloc (Sample.objects (Sample.info (V3 0 0 0)) (Sample.table 16)) in
  let σ1 := <[self := OHeader (set_slice_orientation (Sample.header int16)
                                 "transversal")]> σ in
  get_affine euler2mat σ self "fov"
  = Ok (M4 (M3 (V3 (- 4) 0 0) (V3 0 (- 4) 0) (V3 0 0 (6 + 2)))
           (V3 (256 / 2 - 4 / 2) (256 / 2 - 4 / 2) (6 / 2 - 16 / 2))
           (V3 0 0 0, 1), σ1).
Proof.
  intros σ self σ1.
  destruct (sample_info_lookups (V3 0 0 0)) as (_ & _ & _ & _ & _ & Hang & Hfov & _).
  destruct (get_affine_zero_angulation euler2mat σ σ1 self (Sample.header int16)
              (Sample.info (V3 0 0 0)) "transversal" (V3 4 4 6)
              256 16 256 4 4 6 4 4 (6 + 2) [2000 / 1000]
              (with_header_self _ _) (with_header_info _ _) Hang Hfov
              euler2mat_zero sample_voxel_size (sample_first_query (V3 0 0 0))
              sample_cached_voxel_size sample_cached_zooms) as (Ht & _).
  apply Ht. reflexivity.
Defined.

End ZeroAngulation.

(** ** The unique value of a scalar field *)

(** For a field with a scalar type, [_get_unique_image_prop] returns the
    one-element array of the value that every record holds, and raises
    [PARRECError] when the table is empty or two records differ in the
    field; it does nothing else. *)
Theorem unique_scalar_field (σ : store) (self : loc) (h : PARRECHeader)
  (a : list image_def) (name : string) (column : list scalar) :
  σ !! self = Some (OHeader h) →
  σ !! image_defs h = Some (ONdarray a) →
  getitem a name = Ok (Arr1 column) →
  (∀ v, _get_unique_image_prop σ self name = Ok [v]
        ↔ column ≠ [] ∧ Forall (eq v) column) ∧
  (_get_unique_image_prop σ self name = Raise PARRECError
   ↔ column = [] ∨ ∃ x y, x ∈ column ∧ y ∈ column ∧ x ≠ y) ∧
  ((∃ v, _get_unique_image_prop σ self name = Ok [v])
   ∨ _get_unique_image_prop σ self name = Raise PARRECError).
Proof.
  intros Hself Hdefs Hcol.
  rewrite (_get_unique_image_prop_eq σ self h a Hself Hdefs), Hcol.
  cbn [mbind result_bind].
  assert (Hempty : unique_image_prop (Arr1 ([] : list scalar)) = Raise PARRECError)
    by reflexivity.
  split; [|split].
  - intros v. split.
    + intros Hv. destruct column as [|x l]; [by rewrite Hempty in Hv|].
      split; [done|].
      destruct (decide (Forall (eq v) (x :: l))) as [Hall|Hnall]; [done|].
      exfalso. apply not_Forall_Exists in Hnall; [|apply _].
      apply Exists_exists in Hnall as (y & Hy & Hvy).
      destruct (unique_image_prop_scalar_cases (x :: l) ltac:(done)) as [(w & Hw)|Herr];
        [|by rewrite Herr in Hv].
      unfold unique_image_prop in Hv. cbn [mbind result_bind] in Hv.
      case_decide as Hp; [|done]. simpl in Hp.
      assert (Hlen : length (np_unique (x :: l)) = 1%nat) by lia.
      apply length_np_unique_1 in Hlen as (u & _ & Hu).
      rewrite (np_unique_const (x :: l) u ltac:(done) Hu) in Hv.
      injection Hv as <-. rewrite Forall_forall in Hu. by apply Hvy, Hu.
    + intros (Hne & Hall). by apply unique_image_prop_scalar_const.
  - split.
    + intros Herr. destruct column as [|x l]; [by left|]. right.
      by apply (unique_image_prop_scalar_error (x :: l)).
    + intros [-> | Hxy]; [done|].
      destruct column as [|x l]; [done|].
      by apply (unique_image_prop_scalar_error (x :: l)).
  - destruct column as [|x l]; [by right|].
    apply (unique_image_prop_scalar_cases (x :: l)). done.
Qed.

Lemma unique_scalar_field_witness :
  let σ := Sample.with_header (Sample.info (V3 0 0 0)) (Sample.table 16) in
  let self := alloc (Sample.objects (Sample.info (V3 0 0 0)) (Sample.table 16)) in
  let column := (fun r => F (slice_thickness r)) <$> Sample.table 16 in
  (∀ v, _get_unique_image_prop σ self "slice thickness" = Ok [v]
        ↔ column ≠ [] ∧ Forall (eq v) column) ∧
  (_get_unique_image_prop σ self "slice thickness" = Raise PARRECError
   ↔ column = [] ∨ ∃ x y, x ∈ column ∧ y ∈ column ∧ x ≠ y) ∧
  ((∃ v, _get_unique_image_prop σ self "slice thickness" = Ok [v])
   ∨ _get_unique_image_prop σ self "slice thickness" = Raise PARRECError).
Proof.
  intros σ self column.
  apply (unique_scalar_field σ self (Sample.header int16) (Sample.table 16)).
  - apply with_header_self.
  - apply with_header_defs.
  - reflexivity.
Defined.

(** * Properties of the parser *)

Section ParserProperties.

Variable py_int : string -> result Z.
Variable py_float : string -> result R.
Variable np_fromstring : conv -> string -> list scalar.

Local Abbreviation scan := (scan_line py_int py_float np_fromstring).
Local Abbreviation scan_all := (scan_lines py_int py_float np_fromstring).
Local Abbreviation value_of := (general_value py_int py_float np_fromstring).
Local Abbreviation decode := (decode_items py_int py_float np_fromstring).
Local Abbreviation parse := (parse_PAR_header py_int py_float np_fromstring).

Lemma scan_lines_app (l1 l2 : list string) st :
  scan_all (l1 ++ l2) st = scan_all l1 st ≫= scan_all l2.
Proof.
  revert st. induction l1 as [|l l1 IH]; intros st; [reflexivity|].
  cbn [app scan_lines].
  destruct (scan l st) as [st'|]; [|reflexivity].
  cbn [mbind result_bind]. apply IH.
Qed.

Lemma startswith_dot_not_hash (s : string) :
  Str.startswith s "." = true → Str.startswith s "#" = false.
Proof.
  unfold Str.startswith. destruct s as [|c s]; [discriminate|].
  cbn [String.prefix].
  destruct (ascii_dec "." c) as [<-|]; [intros _ | discriminate].
  destruct (ascii_dec "#" "."); [discriminate | reflexivity].
Qed.

(** The four kinds of line. *)
Lemma scan_line_cases (line : string) gi info (w : list string) :
  let l := Str.strip line in
  (Str.startswith l "#" = true ∧
   ∃ w0, scan line (gi, info, w) = Ok (gi, info, w ++ w0) ∧
         ((w0 = [] ∧ (Str.contains l "image export tool" = false
                      ∨ default EmptyString (last (Str.split l)) ∈ supported_versions))
          ∨ (w0 = [default EmptyString (last (Str.split l))]
             ∧ Str.contains l "image export tool" = true
             ∧ default EmptyString (last (Str.split l)) ∉ supported_versions)))
  ∨ (Str.startswith l "#" = false ∧ Str.startswith l "." = true ∧
     scan line (gi, info, w)
     = match _hdr_key_dict !! entry_key l with
       | None => Raise KeyError
       | Some (name, t) =>
           v ← value_of t (entry_value l);
           Ok (<[name := v]> gi, info, w)
       end)
  ∨ (Str.startswith l "#" = false ∧ Str.startswith l "." = false ∧ l = EmptyString ∧
     scan line (gi, info, w) = Ok (gi, info, w))
  ∨ (Str.startswith l "#" = false ∧ Str.startswith l "." = false ∧ l ≠ EmptyString ∧
     scan line (gi, info, w) = Ok (gi, info ++ [l], w)).
Proof.
  intros l. unfold scan_line. fold l.
  destruct (Str.startswith l "#") eqn:Hh.
  - left. split; [done|].
    destruct (Str.contains l "image export tool") eqn:He.
    + destruct (decide (default EmptyString (last (Str.split l)) ∈ supported_versions))
        as [Hv|Hv].
      * exists []. rewrite app_nil_r. split; [done|]. left. split; [done|]. by right.
      * eexists. split; [reflexivity|]. right. done.
    + exists []. rewrite app_nil_r. split; [done|]. left. split; [done|]. by left.
  - right. destruct (Str.startswith l ".") eqn:Hd.
    + left. done.
    + right. destruct (decide (l = EmptyString)) as [Hl|Hl].
      * left. done.
      * right. done.
Qed.

(** A line that is blank, or a comment without the words of the version
    line, changes nothing. *)
Lemma scan_line_ignored (line : string) st :
  Str.strip line = EmptyString
  ∨ (Str.startswith (Str.strip line) "#" = true
     ∧ Str.contains (Str.strip line) "image export tool" = false) →
  scan line st = Ok st.
Proof.
  intros Hl. destruct st as [[gi info] w]. unfold scan_line.
  destruct Hl as [-> | [-> ->]]; reflexivity.
Qed.

(** Blank lines and comments other than the version line are ignored,
    wherever they stand. *)
Theorem ignored_lines (pre post : list string) (line : string) :
  Str.strip line = EmptyString
  ∨ (Str.startswith (Str.strip line) "#" = true
     ∧ Str.contains (Str.strip line) "image export tool" = false) →
  parse (pre ++ line :: post) = parse (pre ++ post).
Proof.
  intros Hl. unfold parse_PAR_header.
  rewrite !scan_lines_app. cbn [scan_lines].
  destruct (scan_all pre (∅, [], [])) as [st|]; [|reflexivity].
  cbn [mbind result_bind].
  by rewrite (scan_line_ignored line st Hl).
Qed.

Lemma scan_line_unknown_key (line : string) st :
  Str.startswith (Str.strip line) "." = true →
  _hdr_key_dict !! entry_key (Str.strip line) = None →
  scan line st = Raise KeyError.
Proof.
  intros Hdot Hkey. destruct st as [[gi info] w]. unfold scan_line.
  rewrite (startswith_dot_not_hash _ Hdot), Hdot, Hkey. reflexivity.
Qed.

Lemma entry_key_no_colon (line : string) :
  Str.find (Str.from 1 line) ":" = -1 → entry_key line = EmptyString.
Proof.
  intros Hf. unfold entry_key, first_colon. rewrite Hf. reflexivity.
Qed.

Lemma registry_no_empty_key : _hdr_key_dict !! EmptyString = None.
Proof. reflexivity. Qed.

(** A line of general information whose key is not in the registry
    stops the parser with [KeyError], and so does one without a colon,
    as soon as the lines before it have been read. *)
Theorem unknown_key_raises (pre post : list string) (line : string) st :
  scan_all pre (∅, [], []) = Ok st →
  Str.startswith (Str.strip line) "." = true →
  _hdr_key_dict !! entry_key (Str.strip line) = None
  ∨ Str.find (Str.from 1 (Str.strip line)) ":" = -1 →
  parse (pre ++ line :: post) = Raise KeyError.
Proof.
  intros Hpre Hdot Hkey. unfold parse_PAR_header.
  rewrite scan_lines_app, Hpre. cbn [mbind result_bind scan_lines].
  rewrite (scan_line_unknown_key line st Hdot); [reflexivity|].
  destruct Hkey as [Hk|Hc]; [done|].
  rewrite (entry_key_no_colon _ Hc). apply registry_no_empty_key.
Qed.


(** The warnings already issued have no influence on the rest of the
    pass. *)
Lemma scan_line_warned (line : string) gi info (w : list string) :
  scan line (gi, info, w)
  = (fun '(g, i, w0) => (g, i, w ++ w0)) <$> scan line (gi, info, []).
Proof.
  unfold scan_line.
  destruct (Str.startswith (Str.strip line) "#").
  - destruct (Str.contains (Str.strip line) "image export tool").
    + destruct (decide (default EmptyString (last (Str.split (Str.strip line)))
                        ∈ supported_versions));
        cbn [fmap result_fmap app]; by rewrite ?app_nil_r.
    + cbn [fmap result_fmap]. by rewrite app_nil_r.
  - destruct (Str.startswith (Str.strip line) ".").
    + destruct (_hdr_key_dict !! entry_key (Str.strip line)) as [[name t]|];
        [|reflexivity].
      destruct (value_of t (entry_value (Str.strip line))) as [v|];
        [|reflexivity].
      cbn [mbind result_bind fmap result_fmap]. by rewrite app_nil_r.
    + destruct (decide (Str.strip line = EmptyString));
        cbn [fmap result_fmap]; by rewrite app_nil_r.
Qed.

Lemma scan_lines_warned (lines : list string) gi info (w : list string) :
  scan_all lines (gi, info, w)
  = (fun '(g, i, w0) => (g, i, w ++ w0)) <$> scan_all lines (gi, info, []).
Proof.
  revert gi info w. induction lines as [|l lines IH]; intros gi info w.
  - cbn [scan_lines fmap result_fmap]. by rewrite app_nil_r.
  - cbn [scan_lines]. rewrite scan_line_warned.
    destruct (scan l (gi, info, [])) as [[[g i] w0]|]; [|reflexivity].
    cbn [mbind result_bind fmap result_fmap].
    rewrite (IH g i (w ++ w0)), (IH g i w0).
    destruct (scan_all lines (g, i, [])) as [[[g' i'] w1]|]; [|reflexivity].
    cbn [fmap result_fmap]. by rewrite app_assoc.
Qed.

(** A comment line, the version line included, never stops the parser
    and never changes the dictionary or the image definitions: with or
    without it, the parser returns the same data or raises the same
    exception. *)
Theorem comment_lines_keep_data (pre post : list string) (line : string) :
  Str.startswith (Str.strip line) "#" = true →
  (fun r => r.1) <$> parse (pre ++ line :: post)
  = (fun r => r.1) <$> parse (pre ++ post).
Proof.
  intros Hc. unfold parse_PAR_header.
  rewrite !scan_lines_app. cbn [scan_lines].
  destruct (scan_all pre (∅, [], [])) as [[[gi info] w]|]; [|reflexivity].
  cbn [mbind result_bind].
  destruct (scan_line_cases line gi info w)
    as [(_ & w0 & -> & _)|[(H & _)|[(H & _)|(H & _)]]]; try congruence.
  cbn [mbind result_bind].
  rewrite (scan_lines_warned post gi info (w ++ w0)), (scan_lines_warned post gi info w).
  destruct (scan_all post (gi, info, [])) as [[[g i] w1]|]; [|reflexivity].
  cbn [mbind result_bind fmap result_fmap].
  destruct (mapM _ i); reflexivity.
Qed.

(** The version line of a version that is not supported adds one
    warning, with the last word of the line; that of a supported version
    adds none. *)
Lemma scan_line_version (line : string) gi info (w : list string) :
  Str.startswith (Str.strip line) "#" = true →
  Str.contains (Str.strip line) "image export tool" = true →
  let version := default EmptyString (last (Str.split (Str.strip line))) in
  scan line (gi, info, w)
  = Ok (gi, info, if decide (version ∈ supported_versions) then w else w ++ [version]).
Proof.
  intros Hc He version. unfold scan_line. rewrite Hc, He.
  fold version. by destruct (decide (version ∈ supported_versions)).
Qed.

(** ** The image definitions *)

Lemma image_lines_cons (line : string) (lines : list string) :
  image_lines (line :: lines) = image_lines [line] ++ image_lines lines.
Proof.
  unfold image_lines. rewrite fmap_cons.
  change (Str.strip line :: (Str.strip <$> lines))
    with ([Str.strip line] ++ (Str.strip <$> lines)).
  by rewrite filter_app.
Qed.

Lemma scan_line_image (line : string) gi info w gi' info' w' :
  scan line (gi, info, w) = Ok (gi', info', w') →
  info' = info ++ image_lines [line].
Proof.
  unfold image_lines. cbn [fmap list_fmap].
  destruct (scan_line_cases line gi info w)
    as [(H1 & w0 & -> & _)|[(H1 & H2 & ->)|[(H1 & H2 & H3 & ->)|(H1 & H2 & H3 & ->)]]].
  - intros [= <- <- <-]. rewrite filter_cons_False, filter_nil, app_nil_r; [done|].
    intros (E & _). congruence.
  - destruct (_hdr_key_dict !! entry_key (Str.strip line)) as [[name t]|]; [|done].
    destruct (value_of t (entry_value (Str.strip line))) as [v|]; [|done].
    cbn [mbind result_bind]. intros [= <- <- <-].
    rewrite filter_cons_False, filter_nil, app_nil_r; [done|].
    intros (_ & E & _). congruence.
  - intros [= <- <- <-]. rewrite filter_cons_False, filter_nil, app_nil_r; [done|].
    intros (_ & _ & E). done.
  - intros [= <- <- <-]. rewrite filter_cons_True, filter_nil; done.
Qed.

Lemma scan_lines_image (lines : list string) gi info w gi' info' w' :
  scan_all lines (gi, info, w) = Ok (gi', info', w') →
  info' = info ++ image_lines lines.
Proof.
  revert gi info w. induction lines as [|l lines IH]; intros gi info w.
  - cbn [scan_lines]. intros [= <- <- <-].
    unfold image_lines. cbn. by rewrite app_nil_r.
  - cbn [scan_lines].
    destruct (scan l (gi, info, w)) as [[[g i] w0]|] eqn:E; [|done].
    cbn [mbind result_bind]. intros Hrest.
    apply scan_line_image in E. apply IH in Hrest.
    rewrite image_lines_cons, app_assoc. by rewrite <- E.
Qed.

Lemma decode_items_length (dtd : list (string * field_type)) (items : list string)
  (c : nat) (def : list parsed) :
  decode dtd items c = Ok def → length def = length dtd.
Proof.
  revert c def. induction dtd as [|[name t] dtd IH]; intros c def.
  - intros [= <-]. reflexivity.
  - cbn [decode_items]. destruct t as [|cv|cv n].
    + destruct (item items c) as [s|]; [|done]. cbn [mbind result_bind].
      destruct (decode dtd items (c + 1)) as [rest|] eqn:E; [|done].
      cbn [mbind result_bind]. intros [= <-]. cbn [length]. f_equal. by apply (IH (c + 1)%nat).
    + destruct (item items c) as [s|]; [|done]. cbn [mbind result_bind].
      destruct (convert py_int py_float cv s) as [x|]; [|done]. cbn [mbind result_bind].
      destruct (decode dtd items (c + 1)) as [rest|] eqn:E; [|done].
      cbn [mbind result_bind]. intros [= <-]. cbn [length]. f_equal. by apply (IH (c + 1)%nat).
    + cbv zeta.
      destruct (assign_array n _) as [arr|]; [|done]. cbn [mbind result_bind].
      destruct (decode dtd items (c + n)) as [rest|] eqn:E; [|done].
      cbn [mbind result_bind]. intros [= <-]. cbn [length]. f_equal. by apply (IH (c + n)%nat).
Qed.

Lemma mapM_Forall2 {A B} (f : A -> result B) (l : list A) (l' : list B) :
  mapM f l = Ok l' ↔ Forall2 (fun x y => f x = Ok y) l l'.
Proof.
  revert l'. induction l as [|x l IH]; intros l'.
  - cbn [mapM]. split; [intros [= <-]; constructor | by inversion 1].
  - cbn [mapM]. split.
    + destruct (f x) as [y|] eqn:E; [|done]. cbn [mbind result_bind].
      destruct (mapM f l) as [ys|] eqn:E'; [|done]. cbn [mbind result_bind].
      intros [= <-]. constructor; [done|]. by apply IH.
    + inversion 1 as [|? y ? ys Hy Hys]; subst. rewrite Hy. cbn [mbind result_bind].
      apply IH in Hys. rewrite Hys. reflexivity.
Qed.

(** When the parser returns, the image definitions are the decoded image
    lines of the file, one per line and in the order of the file, each
    with the 41 fields of the schema; image lines are the stripped lines
    that are not empty and start neither with a hash nor with a dot. *)
Theorem image_definitions_per_line (fobj : list string)
  (general_info : gmap string parsed) (image_defs : list (list parsed))
  (warned : list string) :
  parse fobj = Ok (general_info, image_defs, warned) →
  Forall2 (fun line def => decode image_def_dtd (Str.split line) 0 = Ok def)
          (image_lines fobj) image_defs ∧
  length image_defs = length (image_lines fobj) ∧
  Forall (fun def => length def = 41%nat) image_defs.
Proof.
  unfold parse_PAR_header.
  destruct (scan_all fobj (∅, [], [])) as [[[gi info] w]|] eqn:E; [|done].
  cbn [mbind result_bind].
  destruct (mapM _ info) as [defs|] eqn:Ed; [|done].
  cbn [mbind result_bind]. intros [= <- <- <-].
  apply scan_lines_image in E. cbn [app] in E. subst info.
  apply mapM_Forall2 in Ed.
  split; [exact Ed|]. split.
  - symmetry. by eapply Forall2_length.
  - apply Forall_forall. intros def Hdef.
    apply list_elem_of_lookup in Hdef as (i & Hi).
    destruct (Forall2_lookup_r _ _ _ _ _ Ed Hi) as (line & _ & Hline).
    by apply decode_items_length in Hline.
Qed.

(** ** The dictionary of general information *)

Lemma general_value_typed (t : field_type) (value : string) (v : parsed) :
  value_of t value = Ok v →
  match t with
  | TString => v = PStr value
  | TScalar int => ∃ z, v = PNum (I z)
  | TScalar float => ∃ x, v = PNum (F x)
  | TArray _ n => ∃ a, v = PArray a ∧ length a = n
  end.
Proof.
  unfold general_value. destruct t as [|[]|c n].
  - by intros [= <-].
  - unfold convert. destruct (py_int value) as [z|]; [|done].
    cbn [fmap result_fmap]. intros [= <-]. eauto.
  - unfold convert. destruct (py_float value) as [x|]; [|done].
    cbn [fmap result_fmap]. intros [= <-]. eauto.
  - cbv zeta. case_decide; [|done]. intros [= <-]. eauto.
Qed.

Lemma scan_lines_registry (lines : list string) gi info w gi' info' w'
  (P : string → parsed → Prop) :
  (∀ key name t value v,
     _hdr_key_dict !! key = Some (name, t) → value_of t value = Ok v → P name v) →
  (∀ name v, gi !! name = Some v → P name v) →
  scan_all lines (gi, info, w) = Ok (gi', info', w') →
  ∀ name v, gi' !! name = Some v → P name v.
Proof.
  intros HP. revert gi info w.
  induction lines as [|l lines IH]; intros gi info w Hgi.
  - cbn [scan_lines]. by intros [= <- <- <-].
  - cbn [scan_lines].
    destruct (scan_line_cases l gi info w)
      as [(H1 & w0 & -> & _)|[(H1 & H2 & ->)|[(H1 & H2 & H3 & ->)|(H1 & H2 & H3 & ->)]]];
      cbn [mbind result_bind]; try (by apply IH).
    destruct (_hdr_key_dict !! entry_key (Str.strip l)) as [[name t]|] eqn:Ek; [|done].
    destruct (value_of t (entry_value (Str.strip l))) as [v|] eqn:Ev; [|done].
    cbn [mbind result_bind]. apply IH.
    intros name' v' Hl. destruct (decide (name' = name)) as [->|Hne].
    + rewrite lookup_insert_eq in Hl. injection Hl as <-. by eapply HP.
    + rewrite lookup_insert_ne in Hl by done. by apply Hgi.
Qed.

(** When the parser returns, every entry of the dictionary stands under
    the short name of a key of the registry and has the type that the
    registry gives for it: a string, an integer, a float, or an array
    with the declared number of elements. *)
Theorem general_info_from_registry (fobj : list string)
  (general_info : gmap string parsed) (image_defs : list (list parsed))
  (warned : list string) (name : string) (v : parsed) :
  parse fobj = Ok (general_info, image_defs, warned) →
  general_info !! name = Some v →
  ∃ key t,
    _hdr_key_dict !! key = Some (name, t) ∧
    match t with
    | TString => ∃ s, v = PStr s
    | TScalar int => ∃ z, v = PNum (I z)
    | TScalar float => ∃ x, v = PNum (F x)
    | TArray _ n => ∃ a, v = PArray a ∧ length a = n
    end.
Proof.
  unfold parse_PAR_header.
  destruct (scan_all fobj (∅, [], [])) as [[[gi info] w]|] eqn:E; [|done].
  cbn [mbind result_bind].
  destruct (mapM _ info) as [defs|]; [|done].
  cbn [mbind result_bind]. intros [= <- <- <-].
  revert name v.
  apply (scan_lines_registry fobj ∅ [] [] gi info w
           (fun name v => ∃ key t,
              _hdr_key_dict !! key = Some (name, t) ∧
              match t with
              | TString => ∃ s, v = PStr s
              | TScalar int => ∃ z, v = PNum (I z)
              | TScalar float => ∃ x, v = PNum (F x)
              | TArray _ n => ∃ a, v = PArray a ∧ length a = n
              end)); [| |exact E].
  - intros key name t value v Hk Hv. exists key, t. split; [done|].
    apply general_value_typed in Hv. destruct t as [|[]|]; eauto.
  - intros name v Hl. by rewrite lookup_empty in Hl.
Qed.

End ParserProperties.

(** ** The parser on sample lines *)

Section SampleLines.

Local Abbreviation parse :=
  (parse_PAR_header Digits.py_int Digits.py_float Digits.np_fromstring).

Lemma ignored_lines_witness :
  parse ([".    Patient name                      :   phantom"]
         ++ "#  === GENERAL INFORMATION ===" :: ["   "])
  = parse ([".    Patient name                      :   phantom"] ++ ["   "]).
Proof.
  apply ignored_lines. right. split; reflexivity.
Defined.

Lemma unknown_key_raises_witness :
  parse ([] ++ ".    Patient weight  :   70" :: ["1 2 3"]) = Raise KeyError.
Proof.
  apply (unknown_key_raises _ _ _ [] ["1 2 3"] _ (∅, [], [])).
  - reflexivity.
  - reflexivity.
  - left. reflexivity.
Defined.

Lemma comment_lines_keep_data_witness :
  (fun r => r.1)
    <$> parse ([] ++ "# CLINICAL TRYOUT    Research image export tool     V4"
                  :: [".    Max. number of slices/locations    :   2"])
  = (fun r => r.1)
      <$> parse ([] ++ [".    Max. number of slices/locations    :   2"]).
Proof. apply comment_lines_keep_data. reflexivity. Defined.


Lemma sample_par_parsed :
  ∃ gi defs, parse Sample.par_lines = Ok (gi, defs, []) ∧
             gi !! "max_slices" = Some (PNum (I 2)) ∧ length defs = 1%nat.
Proof.
  assert (H : match parse Sample.par_lines with
              | Ok (g, d, w) => Some (g !! "max_slices", length d, w)
              | Raise _ => None
              end = Some (Some (PNum (I 2)), 1%nat, [])) by reflexivity.
  destruct (parse Sample.par_lines) as [[[gi defs] w]|e]; [|discriminate H].
  injection H as Hg Hd ->. eauto.
Qed.

Lemma image_definitions_per_line_witness :
  ∃ gi defs,
    parse Sample.par_lines = Ok (gi, defs, []) ∧
    Forall2 (fun line def =>
               decode_items Digits.py_int Digits.py_float Digits.np_fromstring
                 image_def_dtd (Str.split line) 0 = Ok def)
            (image_lines Sample.par_lines) defs ∧
    length defs = length (image_lines Sample.par_lines) ∧
    Forall (fun def => length def = 41%nat) defs.
Proof.
  destruct sample_par_parsed as (gi & defs & E & _).
  exists gi, defs. split; [exact E|].
  apply (image_definitions_per_line _ _ _ Sample.par_lines gi defs [] E).
Defined.

Lemma general_info_from_registry_witness :
  ∃ key t,
    _hdr_key_dict !! key = Some ("max_slices", t) ∧
    match t with
    | TString => ∃ s, PNum (I 2) = PStr s
    | TScalar int => ∃ z, PNum (I 2) = PNum (I z)
    | TScalar float => ∃ x, PNum (I 2) = PNum (F x)
    | TArray _ n => ∃ a, PNum (I 2) = PArray a ∧ length a = n
    end.
Proof.
  destruct sample_par_parsed as (gi & defs & E & Hg & _).
  apply (general_info_from_registry _ _ _ Sample.par_lines gi defs []
           "max_slices" (PNum (I 2)) E Hg).
Defined.

End SampleLines.
